(** * bot.py: a chat bot relaying downloaded TikTok videos

    A shallow embedding of [src/90/bot.py].  The pure parts (the URL
    classifier, path joining, the file search) are plain functions; the
    handlers are written in a state-and-exception monad over a [world]
    holding the file system, the log and the trace of calls made to the
    chat framework and to the extractor library.  What those two
    libraries and the operating system answer is read from an [oracle]. *)

From Stdlib Require Import Ascii String.
From stdpp Require Import gmap strings list fin_maps.

Open Scope string_scope.

(** ** Text

    A Python [str] is held as the bytes of its UTF-8 encoding.  The
    operators [in] and [endswith] are position-wise comparisons, and on
    well-formed UTF-8 they agree on bytes and on code points. *)

Module Str.

(** [sub in s] *)
Fixpoint contains (sub s : string) : bool :=
  String.prefix sub s ||
  match s with
  | EmptyString => false
  | String _ s' => contains sub s'
  end.

(** [s.endswith(suffix)] *)
Fixpoint endswith (s suffix : string) : bool :=
  String.eqb s suffix ||
  match s with
  | EmptyString => false
  | String _ s' => endswith s' suffix
  end.

(** [s.startswith(p)] *)
Definition startswith (s p : string) : bool := String.prefix p s.

(** The declarative reading of "s contains the fragment". *)
Definition occurs_in (frag s : string) : Prop :=
  ∃ pre post, s = pre +:+ frag +:+ post.

(** [str.lower] and [str.strip] belong to the interpreter: their case
    and white-space tables cover all of Unicode and are no part of the
    repository.  The program is modelled over any pair of them. *)
Class Builtins := {
  lower : string → string;
  strip : string → string
}.

(** The ASCII restriction of the two builtins, for evaluation at ASCII
    inputs, where it agrees with the interpreter. *)
Definition lower_ascii_char (c : ascii) : ascii :=
  let n := Ascii.nat_of_ascii c in
  if (65 <=? n)%nat && (n <=? 90)%nat then Ascii.ascii_of_nat (n + 32) else c.

Fixpoint lower_ascii (s : string) : string :=
  match s with
  | EmptyString => EmptyString
  | String c s' => String (lower_ascii_char c) (lower_ascii s')
  end.

(** White space below U+0080: tab, LF, VT, FF, CR, FS, GS, RS, US, space. *)
Definition is_space (c : ascii) : bool :=
  let n := Ascii.nat_of_ascii c in
  ((9 <=? n)%nat && (n <=? 13)%nat) || ((28 <=? n)%nat && (n <=? 32)%nat).

Fixpoint lstrip (s : string) : string :=
  match s with
  | EmptyString => EmptyString
  | String c s' => if is_space c then lstrip s' else s
  end.

Fixpoint rstrip (s : string) : string :=
  match s with
  | EmptyString => EmptyString
  | String c s' =>
      match rstrip s' with
      | EmptyString => if is_space c then EmptyString else String c EmptyString
      | r => String c r
      end
  end.

Definition strip_ascii (s : string) : string := rstrip (lstrip s).

Definition ascii_builtins : Builtins :=
  {| lower := lower_ascii; strip := strip_ascii |}.

End Str.

(** ** The URL classifier (bot.py, lines 55-58) *)

Section Classifier.
Context `{Str.Builtins}.

Definition tiktok_domains : list string :=
  ["tiktok.com"; "vm.tiktok.com"; "vt.tiktok.com"].

(** [any(domain in url.lower() for domain in tiktok_domains)] *)
Definition is_tiktok_url (url : string) : bool :=
  existsb (λ domain, Str.contains domain (Str.lower url)) tiktok_domains.

(** The one-fragment check the three-fragment one is compared with. *)
Definition contains_tiktok_com (url : string) : bool :=
  Str.contains "tiktok.com" (Str.lower url).

End Classifier.


(** ** Python values, exceptions and results *)

(** The values that occur as dictionary entries and as the title. *)
Inductive pyval :=
| VNone
| VStr (s : string)
| VBool (b : bool).

(** [str(v)], as an f-string formats it. *)
Definition py_str (v : pyval) : string :=
  match v with
  | VNone => "None"
  | VStr s => s
  | VBool true => "True"
  | VBool false => "False"
  end.

(** [d.get(key, fallback)] *)
Definition dict_get (d : gmap string pyval) (key : string) (fallback : pyval) : pyval :=
  default fallback (d !! key).

(** An exception: its class and what [str(e)] gives.  Every exception of
    the model is an [Exception], the class both [except] clauses catch. *)
Record exn := Exn { exn_type : string; exn_msg : string }.

Inductive outcome (A : Type) :=
| Ret (a : A)
| Raise (e : exn).
Arguments Ret {A} a.
Arguments Raise {A} e.

(** What [download_video] hands back: a pair [(path, title)] whose path is
    a string or [None], or, when the function runs off its end, the bare
    [None] of a function that returns nothing. *)
Inductive dl_result :=
| RNone
| RPair (path : option string) (title : pyval).

(** [bool(path)] for a path that is a string or [None]. *)
Definition truthy (path : option string) : bool :=
  match path with
  | None => false
  | Some s => negb (String.eqb s "")
  end.

(** ** Paths and the file system *)

Module Path.

(** [os.path.isabs] *)
Definition isabs (p : string) : bool := Str.startswith p "/".

(** [os.path.join(a, b)], POSIX. *)
Definition join (a b : string) : string :=
  if Str.startswith b "/" then b
  else if String.eqb a "" || Str.endswith a "/" then a +:+ b
  else a +:+ "/" +:+ b.

End Path.

(** The disk: every directory with its entries (name and size in bytes) in
    the order the operating system lists them. *)
Module Fs.

Definition isdir (fs : gmap string (list (string * N))) (p : string) : bool :=
  bool_decide (is_Some (fs !! p)).

(** The sizes of the entries that [p] names. *)
Definition sizes_at (fs : gmap string (list (string * N))) (p : string) : list N :=
  flat_map (λ de : string * list (string * N),
              flat_map (λ e : string * N,
                          if String.eqb (Path.join de.1 e.1) p then [e.2] else [])
                       de.2)
           (map_to_list fs).

Definition isfile (fs : gmap string (list (string * N))) (p : string) : bool :=
  match sizes_at fs p with
  | [] => false
  | _ :: _ => true
  end.

(** [os.path.exists] *)
Definition path_exists (fs : gmap string (list (string * N))) (p : string) : bool :=
  isdir fs p || isfile fs p.

(** [os.path.getsize] of a file; [None] when there is no such file.  The
    size of a directory itself is not recorded: the program only asks for
    the size of listed entries. *)
Definition getsize (fs : gmap string (list (string * N))) (p : string) : option N :=
  head (sizes_at fs p).

(** [os.listdir]; [None] when there is no such directory. *)
Definition listdir (fs : gmap string (list (string * N))) (p : string)
  : option (list string) :=
  fmap (M := list) fst <$> fs !! p.

Definition mkdir (p : string) (fs : gmap string (list (string * N)))
  : gmap string (list (string * N)) :=
  <[p := []]> fs.

(** Files appear in directory [d], which is created when it is missing. *)
Definition write (d : string) (files : list (string * N))
    (fs : gmap string (list (string * N))) : gmap string (list (string * N)) :=
  match files with
  | [] => fs
  | _ :: _ => <[d := (default [] (fs !! d) ++ files)%list]> fs
  end.

(** [shutil.rmtree] *)
Definition rmtree (p : string) (fs : gmap string (list (string * N)))
  : gmap string (list (string * N)) :=
  delete p fs.

End Fs.

(** ** The world and the outside

    Calls that leave the process, in the order they are made. *)
Inductive call :=
| ReplyText (text : string)
| EditText (msg : nat) (text : string)
| ReplyVideo (video : string) (caption : string) (parse_mode : string)
| DeleteMessage (msg : nat)
| YdlExtractInfo (url : string)
| YdlDownload (url : string) (outtmpl : pyval).

Definition is_upload (c : call) : bool :=
  match c with
  | ReplyVideo _ _ _ => true
  | _ => false
  end.

Record world := World {
  fs : gmap string (list (string * N));
  ydl_opts : gmap string pyval;    (* downloader.ydl_opts, shared by all calls *)
  log : list string;               (* what logger.error wrote *)
  trace : list call;
  next_msg : nat                   (* identifier of the next message sent *)
}.

Definition set_fs (f : gmap string (list (string * N)) → gmap string (list (string * N)))
    (w : world) : world :=
  World (f (fs w)) (ydl_opts w) (log w) (trace w) (next_msg w).

Definition set_ydl_opts (f : gmap string pyval → gmap string pyval) (w : world) : world :=
  World (fs w) (f (ydl_opts w)) (log w) (trace w) (next_msg w).

Definition add_log (line : string) (w : world) : world :=
  World (fs w) (ydl_opts w) (log w ++ [line])%list (trace w) (next_msg w).

Definition add_call (c : call) (w : world) : world :=
  World (fs w) (ydl_opts w) (log w) (trace w ++ [c])%list (next_msg w).

Definition bump_msg (w : world) : world :=
  World (fs w) (ydl_opts w) (log w) (trace w) (S (next_msg w)).

(** What the extractor answers to [extract_info(url, download=False)]. *)
Inductive extract_outcome :=
| ExtractRaises (e : exn)
| ExtractNothing
| ExtractInfo (info : gmap string pyval).

(** What [ydl.download([url])] does: the files it leaves, and whether it
    raises. *)
Record download_outcome := {
  written : list (string * N);
  dl_error : option exn
}.

(** The answers of the outside: the names [tempfile] tries in turn, the
    extractor's two calls, and for each chat call the error it raises, if
    any. *)
Record oracle := {
  tmp_names : list string;
  extract_info : string → extract_outcome;
  ydl_download : string → download_outcome;
  chat_error : call → option exn
}.

(** ** The monad of handlers: state and exceptions *)

Definition M (S A : Type) : Type := S → outcome A * S.

Definition ret {S A} (a : A) : M S A := λ s, (Ret a, s).

Definition bind {S A B} (m : M S A) (k : A → M S B) : M S B := λ s,
  match m s with
  | (Ret a, s') => k a s'
  | (Raise e, s') => (Raise e, s')
  end.

Declare Scope M_scope.
Delimit Scope M_scope with M.
Notation "x ← y ; z" := (bind y (λ x, z))
  (at level 20, y at level 100, z at level 200, only parsing) : M_scope.
Notation "' x ← y ; z" := (bind y (λ x, z))
  (at level 20, x pattern, y at level 100, z at level 200, only parsing) : M_scope.
Notation "x ;; z" := (bind x (λ _, z))
  (at level 100, z at level 200, only parsing, right associativity) : M_scope.
Open Scope M_scope.

Definition raise {S A} (e : exn) : M S A := λ s, (Raise e, s).

Definition modify {S} (f : S → S) : M S unit := λ s, (Ret (), f s).

(** [try: body  except Exception as e: handler] *)
Definition try_except {S A} (body : M S A) (handler : exn → M S A) : M S A := λ s,
  match body s with
  | (Ret a, s') => (Ret a, s')
  | (Raise e, s') => handler e s'
  end.

(** The exit of a [with] block: [cleanup] runs however [body] ends. *)
Definition finally {S A} (body : M S A) (cleanup : S → S) : M S A := λ s,
  let (r, s') := body s in (r, cleanup s').

(** ** Message texts (bot.py, lines 122-190) *)

Definition invalid_url_text : string :=
"❌ Please send a valid TikTok URL.

Supported formats:
• https://www.tiktok.com/@username/video/1234567890
• https://vm.tiktok.com/xxxxx
• https://vt.tiktok.com/xxxxx".

Definition processing_text : string :=
  "🔄 Processing your TikTok video... Please wait.".

Definition too_large_text : string :=
"❌ Video is too large to send via Telegram (>50MB).
Please try a shorter video.".

Definition uploading_text : string := "📤 Uploading video...".

Definition failed_text : string :=
"❌ Failed to download video. Please check:
• The URL is correct
• The video is public
• The video still exists

Try again or contact support if the issue persists.".

Definition error_text : string :=
"❌ An error occurred while downloading the video.
Please try again later or contact support.".

Definition greeting_text : string :=
"👋 Hi! Send me a TikTok video URL and I'll download it for you.

Use /help for more information.".

Definition success_marker : string := "✅ Downloaded successfully!".

(** [f"🎵 *{video_title}*\n\n✅ Downloaded successfully!"] *)
Definition caption (video_title : pyval) : string :=
  "🎵 *" +:+ py_str video_title +:+ "*

" +:+ success_marker.

(** The size above which a file is not uploaded: [50 * 1024 * 1024]. *)
Definition size_limit : N := 50 * 1024 * 1024.

(** ** Exceptions the interpreter and the operating system raise *)

Definition FileNotFoundError (p : string) : exn :=
  Exn "FileNotFoundError" ("[Errno 2] No such file or directory: '" +:+ p +:+ "'").

Definition IsADirectoryError (p : string) : exn :=
  Exn "IsADirectoryError" ("[Errno 21] Is a directory: '" +:+ p +:+ "'").

Definition FileExistsError : exn :=
  Exn "FileExistsError" "[Errno 17] No usable temporary directory name found".

Definition None_is_no_path (function : string) : exn :=
  Exn "TypeError"
    (function +:+ ": path should be string, bytes or os.PathLike, not NoneType").

Definition unpack_None : exn :=
  Exn "TypeError" "cannot unpack non-iterable NoneType object".

Definition None_has_no_get : exn :=
  Exn "AttributeError" "'NoneType' object has no attribute 'get'".

Definition NameError (name : string) : exn :=
  Exn "NameError" ("name '" +:+ name +:+ "' is not defined").

(** [TikTokDownloader.__init__]: the options dictionary (lines 22-31). *)
Definition initial_ydl_opts : gmap string pyval :=
  list_to_map
    [("format", VStr "best[ext=mp4]");
     ("outtmpl", VStr "%(title)s.%(ext)s");
     ("no_warnings", VBool true);
     ("extractaudio", VBool false);
     ("audioformat", VStr "mp3");
     ("embed_subs", VBool false);
     ("writesubtitles", VBool false);
     ("writeautomaticsub", VBool false)].

(** [os.path.join(output_path, '%(title)s.%(ext)s')], the template
    [download_video] stores for a directory. *)
Definition outtmpl_for (output_path : string) : pyval :=
  VStr (Path.join output_path "%(title)s.%(ext)s").

(** The name [tempfile.mkdtemp] settles on: the first one tried that does
    not exist on the disk yet. *)
Definition fresh_tmp (Ω : oracle) (disk : gmap string (list (string * N)))
  : option string :=
  List.find (λ name, negb (Fs.path_exists disk name)) (tmp_names Ω).

(** ** The program *)

Section Program.
Context `{Str.Builtins} (Ω : oracle).

(** *** Calls to the outside *)

Definition logger_error (line : string) : M world unit := modify (add_log line).

(** A chat call is recorded, then succeeds or raises as the framework
    decides. *)
Definition chat (c : call) : M world unit := λ w,
  match chat_error Ω c with
  | None => (Ret (), add_call c w)
  | Some e => (Raise e, add_call c w)
  end.

(** A sent message gets the next identifier. *)
Definition sent_message : M world nat := λ w, (Ret (next_msg w), bump_msg w).

Definition reply_text (text : string) : M world nat :=
  chat (ReplyText text);; sent_message.

Definition edit_text (msg : nat) (text : string) : M world unit :=
  chat (EditText msg text).

Definition reply_video (video caption parse_mode : string) : M world nat :=
  chat (ReplyVideo video caption parse_mode);; sent_message.

(** [message.delete()] *)
Definition delete_message (msg : nat) : M world unit :=
  chat (DeleteMessage msg).

Definition os_listdir (p : string) : M world (list string) := λ w,
  match Fs.listdir (fs w) p with
  | Some names => (Ret names, w)
  | None => (Raise (FileNotFoundError p), w)
  end.

(** The three calls below are given the handler's [video_path], a string
    or [None]; [None] is no path. *)
Definition os_path_exists (path : option string) : M world bool :=
  match path with
  | Some p => λ w, (Ret (Fs.path_exists (fs w) p), w)
  | None => raise (None_is_no_path "stat")
  end.

Definition os_path_getsize (path : option string) : M world N :=
  match path with
  | Some p => λ w,
      match Fs.getsize (fs w) p with
      | Some size => (Ret size, w)
      | None => (Raise (FileNotFoundError p), w)
      end
  | None => raise (None_is_no_path "stat")
  end.

(** [open(path, 'rb')]; the handle is the path it was opened at. *)
Definition open_rb (path : option string) : M world string :=
  match path with
  | Some p => λ w,
      if Fs.isfile (fs w) p then (Ret p, w)
      else if Fs.isdir (fs w) p then (Raise (IsADirectoryError p), w)
      else (Raise (FileNotFoundError p), w)
  | None => raise (None_is_no_path "open")
  end.

(** [tempfile.mkdtemp] *)
Definition mkdtemp : M world string := λ w,
  match fresh_tmp Ω (fs w) with
  | Some name => (Ret name, set_fs (Fs.mkdir name) w)
  | None => (Raise FileExistsError, w)
  end.

(** [with tempfile.TemporaryDirectory() as temp_dir: body] *)
Definition with_TemporaryDirectory {A} (body : string → M world A) : M world A :=
  temp_dir ← mkdtemp;
  finally (body temp_dir) (set_fs (Fs.rmtree temp_dir)).

(** [ydl.extract_info(url, download=False)] *)
Definition ydl_extract_info (url : string) : M world (option (gmap string pyval)) := λ w,
  let w' := add_call (YdlExtractInfo url) w in
  match extract_info Ω url with
  | ExtractRaises e => (Raise e, w')
  | ExtractNothing => (Ret None, w')
  | ExtractInfo info => (Ret (Some info), w')
  end.

(** [info.get('title', fallback)], where [info] may be [None]. *)
Definition info_get (info : option (gmap string pyval)) (key : string)
    (fallback : pyval) : M world pyval :=
  match info with
  | Some d => ret (dict_get d key fallback)
  | None => raise None_has_no_get
  end.

(** [ydl.download([url])], run with the options of the moment; the
    template they hold places every file in [dir]. *)
Definition ydl_download_to (url dir : string) : M world unit := λ w,
  let o := ydl_download Ω url in
  let w' := set_fs (Fs.write dir (written o))
              (add_call (YdlDownload url (dict_get (ydl_opts w) "outtmpl" VNone)) w) in
  match dl_error o with
  | None => (Ret (), w')
  | Some e => (Raise e, w')
  end.

(** *** TikTokDownloader.download_video (lines 33-53) *)

Definition download_video (url output_path : string) : M world dl_result :=
  try_except
    (modify (set_ydl_opts <["outtmpl" := outtmpl_for output_path]>);;
     info ← ydl_extract_info url;
     video_title ← info_get info "title" (VStr "TikTok_Video");
     ydl_download_to url output_path;;
     files ← os_listdir output_path;
     match List.find (λ file, Str.endswith file ".mp4") files with
     | Some file => ret (RPair (Some (Path.join output_path file)) video_title)
     | None => ret RNone
     end)
    (λ e,
       logger_error ("Error downloading video: " +:+ exn_msg e);;
       ret (RPair None VNone)).

(** *** download_tiktok_video (lines 116-177) *)

(** [video_path, video_title = ...] *)
Definition unpack (r : dl_result) : M world (option string * pyval) :=
  match r with
  | RPair path title => ret (path, title)
  | RNone => raise unpack_None
  end.

(** Lines 138-170: the handler unpacks the downloader's result and acts
    on it. *)
Definition relay (processing_message : nat) (r : dl_result) : M world unit :=
  '(video_path, video_title) ← unpack r;
  found ← (if truthy video_path then os_path_exists video_path else ret false);
  if found then
    file_size ← os_path_getsize video_path;
    if (size_limit <? file_size)%N then
      edit_text processing_message too_large_text
    else
      edit_text processing_message uploading_text;;
      video_file ← open_rb video_path;
      reply_video video_file (caption video_title) "Markdown";;
      delete_message processing_message
  else
    edit_text processing_message failed_text.

Definition download_tiktok_video (text : string) : M world unit :=
  let url := Str.strip text in
  if negb (is_tiktok_url url) then
    reply_text invalid_url_text;; ret ()
  else
    processing_message ← reply_text processing_text;
    try_except
      (with_TemporaryDirectory (λ temp_dir,
         r ← download_video url temp_dir;
         relay processing_message r))
      (λ e,
         logger_error ("Error in download_tiktok_video: " +:+ exn_msg e);;
         edit_text processing_message error_text).

(** *** handle_text (lines 179-190) *)

Definition url_keywords : list string :=
  ["http"; "tiktok.com"; "vm.tiktok.com"; "vt.tiktok.com"].

Definition handle_text (text : string) : M world unit :=
  let message_text := Str.strip text in
  if existsb (λ keyword, Str.contains keyword (Str.lower message_text)) url_keywords
  then download_tiktok_video text
  else reply_text greeting_text;; ret ().

End Program.

(** ** The module's names and main (lines 1-18, 61, 192-206) *)

Inductive object :=
| OValue (v : pyval)
| OModule (name : string)
| OClass (name : string)
| OFunction (name : string)
| OInstance (class : string).

(** [os.getenv(name)] *)
Definition getenv (environ : gmap string string) (name : string) : pyval :=
  match environ !! name with
  | Some value => VStr value
  | None => VNone
  end.

(** The names the module body has bound when [main] is called: the
    imports, [logger], [TOKEN], the class and its instance, the functions,
    and the names every module is born with. *)
Definition module_globals (environ : gmap string string) : gmap string object :=
  list_to_map
    [("__name__", OValue (VStr "__main__"));
     ("__doc__", OValue VNone);
     ("__package__", OValue VNone);
     ("__loader__", OInstance "SourceFileLoader");
     ("__spec__", OValue VNone);
     ("__builtins__", OModule "builtins");
     ("__file__", OValue (VStr "bot.py"));
     ("os", OModule "os");
     ("requests", OModule "requests");
     ("json", OModule "json");
     ("Update", OClass "Update");
     ("Application", OClass "Application");
     ("CommandHandler", OClass "CommandHandler");
     ("MessageHandler", OClass "MessageHandler");
     ("filters", OModule "telegram.ext.filters");
     ("ContextTypes", OClass "ContextTypes");
     ("yt_dlp", OModule "yt_dlp");
     ("tempfile", OModule "tempfile");
     ("logging", OModule "logging");
     ("logger", OInstance "Logger");
     ("TOKEN", OValue (getenv environ "BOT_TOKEN"));
     ("TikTokDownloader", OClass "TikTokDownloader");
     ("downloader", OInstance "TikTokDownloader");
     ("start", OFunction "start");
     ("help_command", OFunction "help_command");
     ("download_tiktok_video", OFunction "download_tiktok_video");
     ("handle_text", OFunction "handle_text");
     ("main", OFunction "main")].

(** The builtins the module refers to; a name found in neither table
    raises [NameError]. *)
Definition builtins : list string := ["print"; "any"; "str"; "open"; "Exception"].

Inductive binding :=
| CommandHandler (command : string) (callback : object)
| MessageHandler (filter : string) (callback : object).

(** The bot as [main] builds it. *)
Record bot := Bot {
  token : option object;       (* what the application builder was given *)
  handlers : list binding;
  stdout : list string;
  polling : bool
}.

Definition new_bot : bot := Bot None [] [] false.

Section Main.
Context (globals : gmap string object).

(** Reading a global name. *)
Definition load_name (name : string) : M bot object :=
  match globals !! name with
  | Some o => ret o
  | None =>
      if bool_decide (name ∈ builtins) then ret (OFunction name)
      else raise (NameError name)
  end.

(** [Application.builder().token(t).build()] *)
Definition build_application (t : object) : M bot unit :=
  modify (λ b, Bot (Some t) (handlers b) (stdout b) (polling b)).

Definition add_handler (h : binding) : M bot unit :=
  modify (λ b, Bot (token b) (handlers b ++ [h])%list (stdout b) (polling b)).

Definition print (line : string) : M bot unit :=
  modify (λ b, Bot (token b) (handlers b) (stdout b ++ [line])%list (polling b)).

Definition run_polling : M bot unit :=
  modify (λ b, Bot (token b) (handlers b) (stdout b) true).

Definition main : M bot unit :=
  _ ← load_name "Application";
  BOT_TOKEN ← load_name "BOT_TOKEN";
  build_application BOT_TOKEN;;
  start ← load_name "start";
  add_handler (CommandHandler "start" start);;
  help_command ← load_name "help_command";
  add_handler (CommandHandler "help" help_command);;
  handle_text ← load_name "handle_text";
  add_handler (MessageHandler "TEXT & ~COMMAND" handle_text);;
  print "🤖 TikTok Downloader Bot is starting...";;
  print "Press Ctrl+C to stop the bot";;
  run_polling.

End Main.

(** ** Worlds for evaluation *)

Definition empty_world : world := World ∅ initial_ydl_opts [] [] 0.

Definition quiet_chat : call → option exn := λ _, None.

Module Demo.

Definition info : gmap string pyval := {[ "title" := VStr "Example" ]}.

(** The extractor finds the video and leaves one file of [size] bytes. *)
Definition good (file : string) (size : N) : oracle :=
  {| tmp_names := ["/tmp/tmpa1b2c3"];
     extract_info := λ _, ExtractInfo info;
     ydl_download := λ _, {| written := [(file, size)]; dl_error := None |};
     chat_error := quiet_chat |}.

(** The same, but the chat framework refuses the upload. *)
Definition upload_fails (file : string) (size : N) : oracle :=
  {| tmp_names := ["/tmp/tmpa1b2c3"];
     extract_info := λ _, ExtractInfo info;
     ydl_download := λ _, {| written := [(file, size)]; dl_error := None |};
     chat_error := λ c, if is_upload c then Some (Exn "NetworkError" "Timed out")
                        else None |}.

Definition url : string := "https://vt.tiktok.com/ZSAbC123".

Definition tmp : string := "/tmp/tmpa1b2c3".

(** The disk while the handler downloads: the temporary directory is
    there and empty. *)
Definition in_tmp : world := set_fs (Fs.mkdir tmp) empty_world.

(** The extractor cannot read the page. *)
Definition extractor_fails : oracle :=
  {| tmp_names := ["/tmp/tmpa1b2c3"];
     extract_info := λ _, ExtractRaises (Exn "DownloadError" "Unable to extract");
     ydl_download := λ _, {| written := []; dl_error := None |};
     chat_error := quiet_chat |}.

(** The download breaks off, leaving a partial file. *)
Definition download_fails : oracle :=
  {| tmp_names := ["/tmp/tmpa1b2c3"];
     extract_info := λ _, ExtractInfo info;
     ydl_download := λ _, {| written := [("Example.mp4.part", 10%N)];
                             dl_error := Some (Exn "DownloadError" "Connection reset") |};
     chat_error := quiet_chat |}.


(** The chat framework refuses every call. *)
Definition refusing : oracle :=
  {| tmp_names := ["/tmp/tmpa1b2c3"];
     extract_info := λ _, ExtractInfo info;
     ydl_download := λ _, {| written := [("Example.mp4", 1000%N)]; dl_error := None |};
     chat_error := λ _, Some (Exn "NetworkError" "Timed out") |}.

(** One handling that ends with the video sent, and one the chat
    framework refuses from the start. *)
Definition handled : outcome () * world :=
  @download_tiktok_video Str.ascii_builtins (good "Example.mp4" 1000) url empty_world.

Definition unanswered : outcome () * world :=
  @download_tiktok_video Str.ascii_builtins refusing url empty_world.

(** A disk with a directory named by a relative path. *)
Definition in_videos : world := set_fs (Fs.mkdir "videos") empty_world.

End Demo.


(** The handler, run on [text] from world [w], gets as far as the
    downloader: the status message [pm] is out, the temporary directory
    [tmp] is made, and [download_video] hands back [r], leaving [w']. *)
Definition downloads `{Str.Builtins} (Ω : oracle) (text : string) (w : world)
    (pm : nat) (tmp : string) (r : dl_result) (w' : world) : Prop :=
  is_tiktok_url (Str.strip text) = true ∧
  ∃ w1 w2,
    reply_text Ω processing_text w = (Ret pm, w1) ∧
    mkdtemp Ω w1 = (Ret tmp, w2) ∧
    download_video Ω (Str.strip text) tmp w2 = (Ret r, w').

(** The calls made between two worlds. *)
Definition calls_since (w w' : world) : list call :=
  drop (length (trace w)) (trace w').

(** The world once both extractor calls of [download_video] are done. *)
Definition after_download (Ω : oracle) (url output_path : string) (w : world) : world :=
  set_fs (Fs.write output_path (written (ydl_download Ω url)))
    (add_call (YdlDownload url (outtmpl_for output_path))
       (add_call (YdlExtractInfo url)
          (set_ydl_opts <["outtmpl" := outtmpl_for output_path]> w))).

(** The chat framework's answer to a call. *)
Definition chat_answer (Ω : oracle) (c : call) : outcome unit :=
  match chat_error Ω c with
  | None => Ret ()
  | Some e => Raise e
  end.

(** The chat calls made when [cs] are tried in turn inside the handler's
    [try]: the first one refused ends the attempt and sends the [except]
    clause to edit the status message [pm] to the error text. *)
Fixpoint attempted (Ω : oracle) (pm : nat) (cs : list call) : list call :=
  match cs with
  | [] => []
  | c :: cs' =>
      c :: match chat_error Ω c with
           | None => attempted Ω pm cs'
           | Some _ => [EditText pm error_text]
           end
  end.

(** The chat calls the handler means to make for a pair the downloader
    returned, [size] being the size of the file the path names. *)
Definition planned (pm : nat) (path : option string) (title : pyval) (size : N)
  : list call :=
  match path with
  | None => [EditText pm failed_text]
  | Some p =>
      if (size_limit <? size)%N then [EditText pm too_large_text]
      else [EditText pm uploading_text;
            ReplyVideo p (caption title) "Markdown";
            DeleteMessage pm]
  end.

(** The calls [download_video] makes. *)
Definition is_ydl_call (c : call) : bool :=
  match c with
  | YdlExtractInfo _ | YdlDownload _ _ => true
  | _ => false
  end.

Arguments Path.join : simpl never.
Arguments Path.isabs : simpl never.
Arguments Fs.isdir : simpl never.
Arguments Fs.isfile : simpl never.
Arguments Fs.path_exists : simpl never.
Arguments Fs.getsize : simpl never.
Arguments Fs.listdir : simpl never.
Arguments Fs.write : simpl never.
Arguments Fs.mkdir : simpl never.
Arguments Fs.rmtree : simpl never.
Arguments dict_get : simpl never.
Arguments outtmpl_for : simpl never.
Arguments caption : simpl never.
Arguments size_limit : simpl never.
Arguments fresh_tmp : simpl never.
Arguments after_download : simpl never.
Arguments is_tiktok_url : simpl never.

(** ** Facts about text *)

Lemma string_prefix_occurs (p s : string) :
  String.prefix p s = true ↔ ∃ post, s = p +:+ post.
Proof.
  revert s. induction p as [|a p IH]; intros s; simpl.
  - destruct s; split; eauto.
  - destruct s as [|b s]; simpl.
    + split; [discriminate | intros [post Hp]; discriminate].
    + destruct (Ascii.ascii_dec a b) as [->|Hne].
      * rewrite IH. split; intros [post Hp]; exists post.
        -- by rewrite Hp.
        -- by injection Hp.
      * split; [discriminate | intros [post Hp]; injection Hp; congruence].
Qed.

Lemma contains_occurs (sub s : string) :
  Str.contains sub s = true ↔ Str.occurs_in sub s.
Proof.
  unfold Str.occurs_in. induction s as [|c s IH]; cbn [Str.contains].
  - rewrite orb_false_r, string_prefix_occurs. split.
    + intros [post Hp]. exists "", post. done.
    + intros [pre [post Hp]]. destruct pre; [|discriminate].
      exists post. done.
  - rewrite orb_true_iff, string_prefix_occurs, IH. split.
    + intros [[post Hp]|[pre [post Hp]]].
      * exists "", post. done.
      * exists (String c pre), post. simpl. by rewrite Hp.
    + intros [pre [post Hp]]. destruct pre as [|d pre]; simpl in Hp.
      * left. eauto.
      * right. exists pre, post. by injection Hp.
Qed.

Lemma string_app_cons (x : ascii) (a b : string) :
  String x a +:+ b = String x (a +:+ b).
Proof. reflexivity. Qed.

Lemma string_app_assoc (a b c : string) : (a +:+ b) +:+ c = a +:+ (b +:+ c).
Proof.
  induction a as [|x a IH]; [done|].
  by rewrite !string_app_cons, IH.
Qed.

Lemma string_app_nil_r (a : string) : a +:+ "" = a.
Proof.
  induction a as [|x a IH]; [done|].
  by rewrite string_app_cons, IH.
Qed.

Lemma occurs_in_trans (a b s : string) :
  Str.occurs_in a b → Str.occurs_in b s → Str.occurs_in a s.
Proof.
  intros [p1 [q1 ->]] [p2 [q2 ->]].
  exists (p2 +:+ p1), (q1 +:+ q2).
  by rewrite !string_app_assoc.
Qed.

Lemma endswith_suffix (s suffix : string) :
  Str.endswith s suffix = true ↔ ∃ pre, s = pre +:+ suffix.
Proof.
  induction s as [|c s IH]; cbn [Str.endswith].
  - rewrite orb_false_r, String.eqb_eq. split.
    + intros <-. by exists "".
    + intros [pre Hp]. destruct pre; [done | discriminate].
  - rewrite orb_true_iff, String.eqb_eq, IH. split.
    + intros [<-|[pre ->]]; [by exists "" | by exists (String c pre)].
    + intros [[|d pre] Hp].
      * by left.
      * right. exists pre. by injection Hp.
Qed.

Arguments Str.contains : simpl never.
Arguments Str.endswith : simpl never.

(** ** The classifier *)

Section ClassifierFacts.
Context `{Str.Builtins}.

Lemma is_tiktok_url_unfold (s : string) :
  is_tiktok_url s =
    Str.contains "tiktok.com" (Str.lower s)
    || Str.contains "vm.tiktok.com" (Str.lower s)
    || Str.contains "vt.tiktok.com" (Str.lower s).
Proof.
  unfold is_tiktok_url, tiktok_domains. cbn [existsb].
  by rewrite orb_false_r, orb_assoc.
Qed.

(** C1. [is_tiktok_url] is a function from strings to booleans, and it
    answers [true] exactly when the lowercased string contains one of
    'tiktok.com', 'vm.tiktok.com', 'vt.tiktok.com', [false] exactly when
    it contains none of them. *)
Theorem is_tiktok_url_iff_fragment (s : string) :
  (is_tiktok_url s = true ↔
     Str.occurs_in "tiktok.com" (Str.lower s)
     ∨ Str.occurs_in "vm.tiktok.com" (Str.lower s)
     ∨ Str.occurs_in "vt.tiktok.com" (Str.lower s))
  ∧ (is_tiktok_url s = false ↔
       ¬ Str.occurs_in "tiktok.com" (Str.lower s)
       ∧ ¬ Str.occurs_in "vm.tiktok.com" (Str.lower s)
       ∧ ¬ Str.occurs_in "vt.tiktok.com" (Str.lower s)).
Proof.
  rewrite is_tiktok_url_unfold, <- !contains_occurs.
  destruct (Str.contains "tiktok.com" _), (Str.contains "vm.tiktok.com" _),
    (Str.contains "vt.tiktok.com" _); cbn; intuition congruence.
Qed.

(** C10. The three-fragment check is the one-fragment check: the two
    longer fragments contain 'tiktok.com', so [is_tiktok_url s] holds
    exactly when the lowercased [s] contains 'tiktok.com'. *)
Theorem is_tiktok_url_single_fragment (s : string) :
  is_tiktok_url s = contains_tiktok_com s
  ∧ (is_tiktok_url s = true ↔ Str.occurs_in "tiktok.com" (Str.lower s)).
Proof.
  assert (Hsub : ∀ d, Str.occurs_in "tiktok.com" d →
            Str.contains d (Str.lower s) = true →
            Str.contains "tiktok.com" (Str.lower s) = true).
  { intros d Hd. rewrite !contains_occurs. by apply occurs_in_trans. }
  assert (Heq : is_tiktok_url s = contains_tiktok_com s).
  { rewrite is_tiktok_url_unfold. unfold contains_tiktok_com.
    destruct (Str.contains "tiktok.com" _) eqn:E0; [done|].
    destruct (Str.contains "vm.tiktok.com" _) eqn:E1.
    { assert (false = true); [|done].
      apply (Hsub "vm.tiktok.com"); [|done]. by exists "vm.", "". }
    destruct (Str.contains "vt.tiktok.com" _) eqn:E2; [|done].
    assert (false = true); [|done].
    apply (Hsub "vt.tiktok.com"); [|done]. by exists "vt.", "". }
  split; [done|].
  rewrite Heq. unfold contains_tiktok_com. apply contains_occurs.
Qed.

End ClassifierFacts.

(** ** Running the monad *)

(** Membership in an explicit list of calls, and its refutation. *)
Ltac list_in :=
  repeat first [apply list_elem_of_here | apply list_elem_of_further].

Ltac list_out H :=
  repeat (apply elem_of_cons in H as [H|H]); try done;
  try (by apply elem_of_nil in H).

Lemma bind_Ret {S A B} (m : M S A) (k : A → M S B) s a s' :
  m s = (Ret a, s') → bind m k s = k a s'.
Proof. unfold bind. by intros ->. Qed.

Lemma bind_Raise {S A B} (m : M S A) (k : A → M S B) s e s' :
  m s = (Raise e, s') → bind m k s = (Raise e, s').
Proof. unfold bind. by intros ->. Qed.

(** ** The downloader *)

Section DownloaderFacts.
Context `{Str.Builtins} (Ω : oracle).

Lemma outtmpl_after_set (output_path : string) (opts : gmap string pyval) :
  dict_get (<["outtmpl" := outtmpl_for output_path]> opts) "outtmpl" VNone
  = outtmpl_for output_path.
Proof. unfold dict_get. by rewrite lookup_insert_eq. Qed.

(** Whatever the outside answers, [download_video] returns. *)
Lemma download_video_returns (url output_path : string) (w : world) :
  ∃ r w', download_video Ω url output_path w = (Ret r, w').
Proof.
  unfold download_video, try_except.
  match goal with |- context [match ?b w with _ => _ end] => destruct (b w) as [[r|e] w'] end.
  - eauto.
  - unfold bind, logger_error, modify, ret. eauto.
Qed.

(** The extractor raises: the error is logged and the pair of [None]s
    comes back. *)
Lemma download_video_extract_error (url output_path : string) (w : world) (e : exn) :
  extract_info Ω url = ExtractRaises e →
  ∃ w', download_video Ω url output_path w = (Ret (RPair None VNone), w')
        ∧ log w' = (log w ++ ["Error downloading video: " +:+ exn_msg e])%list.
Proof.
  intros He.
  unfold download_video, try_except, bind, modify, ydl_extract_info.
  rewrite He. cbn. eauto.
Qed.

(** The download raises: likewise. *)
Lemma download_video_download_error (url output_path : string) (w : world)
    (info : gmap string pyval) (e : exn) :
  extract_info Ω url = ExtractInfo info →
  dl_error (ydl_download Ω url) = Some e →
  ∃ w', download_video Ω url output_path w = (Ret (RPair None VNone), w')
        ∧ log w' = (log w ++ ["Error downloading video: " +:+ exn_msg e])%list.
Proof.
  intros He Hd.
  unfold download_video, try_except, bind, modify, ydl_extract_info, info_get,
    ret, ydl_download_to.
  rewrite He. cbn. rewrite Hd. cbn. eauto.
Qed.

(** Extraction and download go through and a listed file ends in
    '.mp4': the first such file comes back, joined to the directory, with
    the title. *)
Lemma download_video_found (url output_path : string) (w : world)
    (info : gmap string pyval) (names : list string) (file : string) :
  extract_info Ω url = ExtractInfo info →
  dl_error (ydl_download Ω url) = None →
  Fs.listdir (Fs.write output_path (written (ydl_download Ω url)) (fs w)) output_path
    = Some names →
  List.find (λ f, Str.endswith f ".mp4") names = Some file →
  download_video Ω url output_path w
  = (Ret (RPair (Some (Path.join output_path file))
                (dict_get info "title" (VStr "TikTok_Video"))),
     after_download Ω url output_path w).
Proof.
  intros He Hd Hl Hf.
  unfold download_video, try_except, bind, modify, ydl_extract_info, info_get,
    ret, ydl_download_to, os_listdir.
  rewrite He. cbn. rewrite Hd, outtmpl_after_set. cbn.
  rewrite Hl. cbn. by rewrite Hf.
Qed.

(** Extraction and download go through and no listed file ends in
    '.mp4': the function runs off its end, so the bare [None] comes back
    and nothing is logged. *)
Lemma download_video_no_match (url output_path : string) (w : world)
    (info : gmap string pyval) (names : list string) :
  extract_info Ω url = ExtractInfo info →
  dl_error (ydl_download Ω url) = None →
  Fs.listdir (Fs.write output_path (written (ydl_download Ω url)) (fs w)) output_path
    = Some names →
  List.find (λ f, Str.endswith f ".mp4") names = None →
  download_video Ω url output_path w = (Ret RNone, after_download Ω url output_path w)
  ∧ log (after_download Ω url output_path w) = log w.
Proof.
  intros He Hd Hl Hf.
  unfold download_video, try_except, bind, modify, ydl_extract_info, info_get,
    ret, ydl_download_to, os_listdir.
  rewrite He. cbn. rewrite Hd, outtmpl_after_set. cbn.
  rewrite Hl. cbn. by rewrite Hf.
Qed.

(** A path comes back only along the successful run. *)
Lemma download_video_path_inv (url output_path : string) (w w' : world)
    (p : string) (title : pyval) :
  download_video Ω url output_path w = (Ret (RPair (Some p) title), w') →
  ∃ info names file,
    extract_info Ω url = ExtractInfo info
    ∧ dl_error (ydl_download Ω url) = None
    ∧ Fs.listdir (Fs.write output_path (written (ydl_download Ω url)) (fs w)) output_path
    = Some names
    ∧ List.find (λ f, Str.endswith f ".mp4") names = Some file
    ∧ p = Path.join output_path file
    ∧ title = dict_get info "title" (VStr "TikTok_Video")
    ∧ w' = after_download Ω url output_path w.
Proof.
  unfold download_video, try_except, bind, modify, ydl_extract_info, info_get,
    ret, raise, ydl_download_to, os_listdir, logger_error.
  destruct (extract_info Ω url) as [e| |info] eqn:He; cbn; [congruence..|].
  destruct (dl_error (ydl_download Ω url)) as [e|] eqn:Hd; cbn; [congruence|].
  rewrite outtmpl_after_set.
  destruct (Fs.listdir _ _) as [names|] eqn:Hl; cbn; [|congruence].
  destruct (find _ names) as [file|] eqn:Hf; cbn; [|congruence].
  intros [= <- <- <-]. by exists info, names, file.
Qed.

Lemma isfile_listed (disk : gmap string (list (string * N))) (d n : string)
    (entries : list (string * N)) (size : N) :
  disk !! d = Some entries → (n, size) ∈ entries →
  Fs.isfile disk (Path.join d n) = true.
Proof.
  intros Hd Hin. unfold Fs.isfile.
  assert (In size (Fs.sizes_at disk (Path.join d n))) as Hs.
  { unfold Fs.sizes_at. apply in_flat_map. exists (d, entries). split.
    - by apply list_elem_of_In, elem_of_map_to_list.
    - apply in_flat_map. exists (n, size). split; [by apply list_elem_of_In|].
      cbn. rewrite String.eqb_refl. by left. }
  by destruct (Fs.sizes_at disk (Path.join d n)).
Qed.

Lemma join_nonempty (a b : string) : b ≠ "" → Path.join a b ≠ "".
Proof.
  intros Hb. unfold Path.join.
  destruct (Str.startswith b "/"); [done|].
  destruct a as [|c a]; [by destruct (_ || _)|].
  destruct (_ || _); by rewrite string_app_cons.
Qed.

(** The path that comes back names a listed file: it is not empty, it is
    on the disk, and it has a size. *)
Lemma downloaded_path_on_disk (url output_path : string) (w w' : world)
    (p : string) (title : pyval) :
  download_video Ω url output_path w = (Ret (RPair (Some p) title), w') →
  p ≠ ""
  ∧ Fs.path_exists (fs w') p = true
  ∧ ∃ size, Fs.getsize (fs w') p = Some size.
Proof.
  intros Hrun. apply download_video_path_inv in Hrun
    as (info & names & file & _ & _ & Hl & Hf & -> & _ & ->).
  apply find_some in Hf as [Hin Hmp4].
  assert (file ≠ "") as Hne.
  { apply endswith_suffix in Hmp4 as [pre ->]. by destruct pre. }
  unfold Fs.listdir in Hl. apply fmap_Some in Hl as (entries & Hd & ->).
  apply list_elem_of_In, list_elem_of_fmap in Hin as ([n size] & -> & Hin).
  pose proof (isfile_listed _ _ _ _ _ Hd Hin) as Hfile.
  change (fs (after_download Ω url output_path w))
    with (Fs.write output_path (written (ydl_download Ω url)) (fs w)).
  cbn [fst] in *.
  split; [by apply join_nonempty|].
  split; [unfold Fs.path_exists; rewrite Hfile; apply orb_true_r|].
  unfold Fs.isfile in Hfile. unfold Fs.getsize.
  destruct (Fs.sizes_at _ _) as [|sz l]; [done|]. by exists sz.
Qed.

Lemma find_first {A} (f : A → bool) (before after : list A) (x : A) :
  (∀ y, y ∈ before → f y = false) → f x = true →
  List.find f (before ++ x :: after) = Some x.
Proof.
  intros Hb Hx. induction before as [|y before IH]; cbn.
  - by rewrite Hx.
  - rewrite (Hb y) by apply list_elem_of_here.
    apply IH. intros z Hz. apply Hb. by apply list_elem_of_further.
Qed.

Lemma isabs_join (a b : string) :
  Path.isabs a = true → Path.isabs (Path.join a b) = true.
Proof.
  unfold Path.join, Path.isabs, Str.startswith.
  destruct (String.prefix "/" b) eqn:Hb; [done|].
  intros Ha. apply string_prefix_occurs in Ha as [rest ->].
  apply string_prefix_occurs.
  destruct (_ || _); eexists; by rewrite string_app_assoc.
Qed.

(** C6, as the code has it.  When extraction and download go through
    and [file] is the first listed entry of the directory whose name ends
    in '.mp4', [download_video] returns the directory path joined with
    [file], and the title of the extractor's metadata, or 'TikTok_Video'
    when the metadata has no title.  The path is absolute whenever the
    directory path given is. *)
Theorem download_video_success (url output_path : string) (w : world)
    (info : gmap string pyval) (before after : list string) (file : string) :
  extract_info Ω url = ExtractInfo info →
  dl_error (ydl_download Ω url) = None →
  Fs.listdir (Fs.write output_path (written (ydl_download Ω url)) (fs w)) output_path
    = Some (before ++ file :: after)%list →
  (∀ f, f ∈ before → ¬ ∃ pre, f = pre +:+ ".mp4") →
  (∃ pre, file = pre +:+ ".mp4") →
  ∃ title w',
    download_video Ω url output_path w
    = (Ret (RPair (Some (Path.join output_path file)) title), w')
    ∧ match info !! "title" with
      | Some t => title = t
      | None => title = VStr "TikTok_Video"
      end
    ∧ (Path.isabs output_path = true →
       Path.isabs (Path.join output_path file) = true).
Proof.
  intros He Hd Hl Hb Hf.
  assert (List.find (λ f, Str.endswith f ".mp4") (before ++ file :: after) = Some file)
    as Hfind.
  { apply find_first.
    - intros y Hy. apply not_true_is_false. rewrite endswith_suffix. by apply Hb.
    - by apply endswith_suffix. }
  eexists _, _. split; [by eapply download_video_found|].
  split; [|apply isabs_join].
  unfold dict_get. by destruct (info !! "title").
Qed.

End DownloaderFacts.

(** ** The handler *)

Section HandlerFacts.
Context `{Str.Builtins} (Ω : oracle).

Lemma edit_text_run (pm : nat) (text : string) (w : world) :
  edit_text Ω pm text w
  = (match chat_error Ω (EditText pm text) with
     | None => Ret ()
     | Some e => Raise e
     end, add_call (EditText pm text) w).
Proof. unfold edit_text, chat. by destruct (chat_error _ _). Qed.

(** Once the downloader has answered, the rest of the handler is [relay]
    inside the [with] and the [try]. *)
Lemma handler_after_download (text : string) (w w' : world) (pm : nat)
    (tmp : string) (r : dl_result) :
  downloads Ω text w pm tmp r w' →
  download_tiktok_video Ω text w
  = try_except
      (finally (relay Ω pm r) (set_fs (Fs.rmtree tmp)))
      (λ e, logger_error ("Error in download_tiktok_video: " +:+ exn_msg e);;
            edit_text Ω pm error_text) w'.
Proof.
  intros [Hurl (w1 & w2 & Hr & Hm & Hd)].
  unfold download_tiktok_video. rewrite Hurl. cbn [negb].
  rewrite (bind_Ret _ _ _ _ _ Hr).
  unfold try_except at 1, with_TemporaryDirectory.
  rewrite (bind_Ret _ _ _ _ _ Hm).
  unfold finally at 1. rewrite (bind_Ret _ _ _ _ _ Hd).
  reflexivity.
Qed.

(** What the handler has done when the downloader hands back a path. *)
Lemma downloads_path (text : string) (w w' : world) (pm : nat) (tmp p : string)
    (title : pyval) :
  downloads Ω text w pm tmp (RPair (Some p) title) w' →
  pm = next_msg w
  ∧ chat_error Ω (ReplyText processing_text) = None
  ∧ fresh_tmp Ω (fs w) = Some tmp
  ∧ trace w' = (trace w ++ [ReplyText processing_text;
                            YdlExtractInfo (Str.strip text);
                            YdlDownload (Str.strip text) (outtmpl_for tmp)])%list
  ∧ log w' = log w
  ∧ fs w' = Fs.write tmp (written (ydl_download Ω (Str.strip text)))
              (Fs.mkdir tmp (fs w)).
Proof.
  intros [Hurl (w1 & w2 & Hr & Hm & Hd)].
  unfold reply_text, chat, bind, sent_message in Hr.
  destruct (chat_error Ω (ReplyText processing_text)) eqn:Hc; [done|].
  injection Hr as <- <-.
  unfold mkdtemp in Hm. cbn in Hm.
  destruct (fresh_tmp Ω (fs w)) as [d|] eqn:Hfresh; [|done].
  injection Hm as <- <-.
  apply download_video_path_inv in Hd
    as (info & names & file & _ & _ & _ & _ & _ & _ & ->).
  unfold after_download. cbn. by rewrite <- !app_assoc.
Qed.

(** A TikTok URL, a status message that goes out and a free temporary
    name: the handler reaches the downloader, which answers. *)
Lemma handler_reaches_download (text : string) (w : world) (tmp : string) :
  is_tiktok_url (Str.strip text) = true →
  chat_error Ω (ReplyText processing_text) = None →
  fresh_tmp Ω (fs w) = Some tmp →
  ∃ r w', downloads Ω text w (next_msg w) tmp r w'.
Proof.
  intros Hurl Hc Hf.
  destruct (download_video_returns Ω (Str.strip text) tmp
              (set_fs (Fs.mkdir tmp) (bump_msg (add_call (ReplyText processing_text) w))))
    as (r & w' & Hd).
  exists r, w'. split; [done|]. eexists _, _. repeat split.
  - unfold reply_text, chat, bind, sent_message. by rewrite Hc.
  - unfold mkdtemp. cbn. by rewrite Hf.
  - exact Hd.
Qed.

Lemma downloads_on_disk (text : string) (w w' : world) (pm : nat) (tmp p : string)
    (title : pyval) :
  downloads Ω text w pm tmp (RPair (Some p) title) w' →
  p ≠ "" ∧ Fs.path_exists (fs w') p = true.
Proof.
  intros [_ (w1 & w2 & _ & _ & Hd)].
  apply downloaded_path_on_disk in Hd as (Hne & Hp & _). done.
Qed.

Lemma relay_bare_None (pm : nat) (w : world) :
  relay Ω pm RNone w = (Raise unpack_None, w).
Proof. reflexivity. Qed.

Lemma relay_no_path (pm : nat) (title : pyval) (w : world) :
  relay Ω pm (RPair None title) w = edit_text Ω pm failed_text w.
Proof. reflexivity. Qed.

Lemma relay_missing (pm : nat) (p : string) (title : pyval) (w : world) :
  Fs.path_exists (fs w) p = false →
  relay Ω pm (RPair (Some p) title) w = edit_text Ω pm failed_text w.
Proof.
  intros Hp. unfold relay, unpack, os_path_exists, bind, ret.
  cbn. destruct (negb (p =? "")); cbn; [by rewrite Hp | done].
Qed.

Lemma relay_too_large (pm : nat) (p : string) (title : pyval) (w : world) (size : N) :
  p ≠ "" →
  Fs.path_exists (fs w) p = true →
  Fs.getsize (fs w) p = Some size →
  (size_limit < size)%N →
  relay Ω pm (RPair (Some p) title) w = edit_text Ω pm too_large_text w.
Proof.
  intros Hne Hp Hs Hlt.
  apply String.eqb_neq in Hne. apply N.ltb_lt in Hlt.
  unfold relay, unpack, os_path_exists, os_path_getsize, bind, ret.
  cbn. rewrite Hne. cbn. rewrite Hp, Hs. cbn. by rewrite Hlt.
Qed.

Lemma relay_within_limit (pm : nat) (p : string) (title : pyval) (w : world) (size : N) :
  p ≠ "" →
  Fs.path_exists (fs w) p = true →
  Fs.getsize (fs w) p = Some size →
  (size ≤ size_limit)%N →
  relay Ω pm (RPair (Some p) title) w
  = (edit_text Ω pm uploading_text;;
     video_file ← open_rb (Some p);
     reply_video Ω video_file (caption title) "Markdown";;
     delete_message Ω pm) w.
Proof.
  intros Hne Hp Hs Hle.
  apply String.eqb_neq in Hne. apply N.ltb_ge in Hle.
  unfold relay, unpack, os_path_exists, os_path_getsize, bind, ret.
  cbn. rewrite Hne. cbn. rewrite Hp, Hs. cbn. by rewrite Hle.
Qed.

Lemma getsize_isfile (disk : gmap string (list (string * N))) (p : string) (size : N) :
  Fs.getsize disk p = Some size → Fs.isfile disk p = true.
Proof. unfold Fs.getsize, Fs.isfile. by destruct (Fs.sizes_at disk p). Qed.

Lemma calls_since_app (w wf : world) (l : list call) :
  trace wf = (trace w ++ l)%list → calls_since w wf = l.
Proof. unfold calls_since. intros ->. apply drop_app_length. Qed.

(** C4. When the download has produced an existing file of more than
    50 * 1024 * 1024 bytes, the handler edits the status message to the
    "too large" text and makes no upload call: neither the "uploading"
    notice nor [reply_video]. *)
Theorem too_large_is_rejected_without_upload (text : string) (w w' : world)
    (pm : nat) (tmp p : string) (title : pyval) (size : N) :
  downloads Ω text w pm tmp (RPair (Some p) title) w' →
  Fs.getsize (fs w') p = Some size →
  (50 * 1024 * 1024 < size)%N →
  ∃ out wf,
    download_tiktok_video Ω text w = (out, wf)
    ∧ EditText pm too_large_text ∈ calls_since w wf
    ∧ (∀ c, c ∈ calls_since w wf → is_upload c = false)
    ∧ (EditText pm uploading_text ∉ calls_since w wf)
    ∧ (chat_error Ω (EditText pm too_large_text) = None → out = Ret ()).
Proof.
  intros Hd Hs Hlt.
  destruct (downloads_on_disk _ _ _ _ _ _ _ Hd) as [Hne Hp].
  destruct (downloads_path _ _ _ _ _ _ _ Hd) as (_ & _ & _ & Htr & _ & _).
  rewrite (handler_after_download _ _ _ _ _ _ Hd).
  unfold try_except, finally.
  rewrite (relay_too_large _ _ _ _ _ Hne Hp Hs Hlt), edit_text_run.
  destruct (chat_error Ω (EditText pm too_large_text)) as [e|] eqn:Hc.
  - unfold bind, logger_error, modify. rewrite edit_text_run.
    eexists _, _. split; [reflexivity|].
    erewrite calls_since_app;
      [|cbn; rewrite Htr, <- !app_assoc; cbn; reflexivity].
    repeat split.
    + do 3 apply list_elem_of_further. apply list_elem_of_here.
    + intros c Hin. repeat (apply elem_of_cons in Hin as [->|Hin]); try done.
      by apply elem_of_nil in Hin.
    + intros Hin. repeat (apply elem_of_cons in Hin as [Hin|Hin]); try done.
      by apply elem_of_nil in Hin.
    + done.
  - eexists _, _. split; [reflexivity|].
    erewrite calls_since_app;
      [|cbn; rewrite Htr, <- !app_assoc; cbn; reflexivity].
    repeat split.
    + do 3 apply list_elem_of_further. apply list_elem_of_here.
    + intros c Hin. repeat (apply elem_of_cons in Hin as [->|Hin]); try done.
      by apply elem_of_nil in Hin.
    + intros Hin. repeat (apply elem_of_cons in Hin as [Hin|Hin]); try done.
      by apply elem_of_nil in Hin.
Qed.

(** C9. The size check is strict.  A file of exactly 50 * 1024 * 1024
    bytes is not rejected: the handler goes on to the upload step (the
    "uploading" notice, then [reply_video] once the notice is accepted).
    The "too large" text is sent exactly for sizes strictly above. *)
Theorem size_check_is_strict (text : string) (w w' : world)
    (pm : nat) (tmp p : string) (title : pyval) (size : N) :
  downloads Ω text w pm tmp (RPair (Some p) title) w' →
  Fs.getsize (fs w') p = Some size →
  ∃ out wf,
    download_tiktok_video Ω text w = (out, wf)
    ∧ (EditText pm too_large_text ∈ calls_since w wf ↔ (50 * 1024 * 1024 < size)%N)
    ∧ (EditText pm uploading_text ∈ calls_since w wf ↔ (size ≤ 50 * 1024 * 1024)%N)
    ∧ ((size ≤ 50 * 1024 * 1024)%N →
       chat_error Ω (EditText pm uploading_text) = None →
       ReplyVideo p (caption title) "Markdown" ∈ calls_since w wf).
Proof.
  intros Hd Hs.
  destruct (downloads_on_disk _ _ _ _ _ _ _ Hd) as [Hne Hp].
  destruct (downloads_path _ _ _ _ _ _ _ Hd) as (_ & _ & _ & Htr & _ & _).
  rewrite (handler_after_download _ _ _ _ _ _ Hd).
  change (50 * 1024 * 1024)%N with size_limit.
  destruct (N.lt_ge_cases size_limit size) as [Hlt|Hle].
  - unfold try_except, finally.
    rewrite (relay_too_large _ _ _ _ _ Hne Hp Hs Hlt), edit_text_run.
    unfold bind, logger_error, modify, edit_text, chat.
    repeat match goal with
           | |- context [chat_error Ω ?c] => destruct (chat_error Ω c) eqn:?; cbn
           end;
      (eexists _, _; split; [reflexivity|]);
      (erewrite calls_since_app;
         [|cbn; rewrite Htr, <- !app_assoc; cbn; reflexivity]);
      (split; [split; [done | intros _; list_in]|]);
      (split; [split; [intros Hin; list_out Hin | lia] | lia]).
  - unfold try_except, finally.
    rewrite (relay_within_limit _ _ _ _ _ Hne Hp Hs Hle).
    pose proof (getsize_isfile _ _ _ Hs) as Hfile.
    unfold bind, logger_error, modify, edit_text, reply_video, delete_message, chat,
      sent_message, open_rb.
    repeat match goal with
           | |- context [Fs.isfile (fs w') p] => rewrite Hfile; cbn
           | |- context [match chat_error Ω ?c with _ => _ end] =>
               destruct (chat_error Ω c) eqn:?; cbn
           | _ => progress unfold bind; cbn
           end;
      (eexists _, _; split; [reflexivity|]);
      (erewrite calls_since_app;
         [|cbn; rewrite Htr, <- !app_assoc; cbn; reflexivity]);
      (split; [split; [intros Hin; list_out Hin | lia]|]);
      (split; [split; [done | intros _; list_in]|]);
      intros _ Hok; try discriminate Hok; list_in.
Qed.

(** *** The temporary directory *)

Lemma download_video_fs (url output_path : string) (w w' : world) (r : outcome dl_result) :
  download_video Ω url output_path w = (r, w') →
  fs w' = fs w
  ∨ fs w' = Fs.write output_path (written (ydl_download Ω url)) (fs w).
Proof.
  unfold download_video, try_except, logger_error, bind, modify, ydl_extract_info,
    info_get, ret, raise, ydl_download_to, os_listdir.
  intros Hrun. repeat (case_match; simplify_eq; cbn in * ); auto.
Qed.

Lemma relay_fs (pm : nat) (r : dl_result) (w w' : world) (o : outcome ()) :
  relay Ω pm r w = (o, w') → fs w' = fs w.
Proof.
  unfold relay, unpack, os_path_exists, os_path_getsize,
    edit_text, reply_video, delete_message, chat, sent_message, open_rb, bind, ret, raise.
  intros Hrun. repeat (case_match; simplify_eq; cbn in * ); auto.
Qed.

Lemma fresh_tmp_absent (disk : gmap string (list (string * N))) (tmp : string) :
  fresh_tmp Ω disk = Some tmp →
  Fs.path_exists disk tmp = false ∧ disk !! tmp = None.
Proof.
  unfold fresh_tmp. intros Hf. apply find_some in Hf as [_ Hf].
  apply negb_true_iff in Hf. split; [done|].
  unfold Fs.path_exists in Hf. apply orb_false_iff in Hf as [Hdir _].
  unfold Fs.isdir in Hdir. apply bool_decide_eq_false in Hdir.
  by apply eq_None_not_Some.
Qed.

Lemma rmtree_after_download (disk : gmap string (list (string * N))) (tmp : string)
    (files : list (string * N)) :
  disk !! tmp = None →
  Fs.rmtree tmp (Fs.mkdir tmp disk) = disk
  ∧ Fs.rmtree tmp (Fs.write tmp files (Fs.mkdir tmp disk)) = disk.
Proof.
  intros Hnone. unfold Fs.rmtree, Fs.mkdir, Fs.write.
  assert (delete tmp (<[tmp:=[]]> disk) = disk) as Hd by by apply delete_insert_id.
  split; [done|]. destruct files; [done|].
  by rewrite delete_insert_eq.
Qed.

(** While the downloader runs, the directory is there. *)
Lemma mkdtemp_creates (w : world) (tmp : string) :
  fresh_tmp Ω (fs w) = Some tmp →
  ∃ w2, mkdtemp Ω w = (Ret tmp, w2) ∧ Fs.path_exists (fs w2) tmp = true.
Proof.
  intros Hf. unfold mkdtemp. rewrite Hf. eexists. split; [done|].
  cbn. unfold Fs.path_exists, Fs.isdir, Fs.mkdir.
  rewrite lookup_insert_eq. by rewrite bool_decide_eq_true_2.
Qed.

(** C5. However the handling of a message ends (video sent, file too
    large, download failed, or an exception in download or upload, caught
    or not), the directory made for it is gone from the disk afterwards,
    and the disk is as it was before. *)
Theorem temporary_directory_is_removed (text : string) (w wf : world)
    (out : outcome ()) :
  download_tiktok_video Ω text w = (out, wf) →
  fs wf = fs w
  ∧ ∀ tmp, fresh_tmp Ω (fs w) = Some tmp → Fs.path_exists (fs wf) tmp = false.
Proof.
  intros Hrun.
  assert (fs wf = fs w) as Hfs; [|split; [done|]].
  2: { intros tmp Hf. rewrite Hfs. by apply fresh_tmp_absent. }
  revert Hrun. unfold download_tiktok_video.
  destruct (is_tiktok_url (Str.strip text)); cbn [negb].
  2: { unfold reply_text, chat, sent_message, bind, ret.
    intros Hrun. repeat (case_match; simplify_eq; cbn in * ); auto. }
  unfold bind at 1.
  destruct (reply_text Ω processing_text w) as [[pm|e] w1] eqn:Hr.
  2: { unfold reply_text, chat, sent_message, bind in Hr.
       intros [= <- <-]. repeat (case_match; simplify_eq; cbn in * ); auto. }
  assert (fs w1 = fs w) as Hw1.
  { unfold reply_text, chat, sent_message, bind in Hr.
    repeat (case_match; simplify_eq; cbn in * ); auto. }
  assert (∀ (e : exn) (w3 : world) (o : outcome ()) (w4 : world),
            (logger_error ("Error in download_tiktok_video: " +:+ exn_msg e);;
             edit_text Ω pm error_text) w3 = (o, w4) → fs w4 = fs w3) as Hhandler.
  { intros e w3 o w4. unfold bind, logger_error, modify. rewrite edit_text_run.
    by intros [= <- <-]. }
  unfold try_except, with_TemporaryDirectory. unfold bind at 1. unfold mkdtemp.
  destruct (fresh_tmp Ω (fs w1)) as [tmp|] eqn:Hf.
  2: { intros Hrun. apply Hhandler in Hrun. by rewrite Hrun. }
  rewrite Hw1 in Hf. apply fresh_tmp_absent in Hf as [_ Hnone].
  unfold finally, bind.
  destruct (download_video Ω (Str.strip text) tmp (set_fs (Fs.mkdir tmp) w1))
    as [[r|e] w3] eqn:Hd.
  2: { destruct (download_video_returns Ω (Str.strip text) tmp
                   (set_fs (Fs.mkdir tmp) w1)) as (r & w3' & Hret).
       congruence. }
  destruct (relay Ω pm r w3) as [o w4] eqn:Hrelay.
  apply relay_fs in Hrelay. apply download_video_fs in Hd. cbn in Hd.
  rewrite Hw1 in Hd.
  destruct (rmtree_after_download (fs w) tmp
              (written (ydl_download Ω (Str.strip text))) Hnone) as [Hrm1 Hrm2].
  assert (Fs.rmtree tmp (fs w4) = fs w) as Hclean.
  { rewrite Hrelay. by destruct Hd as [->| ->]. }
  destruct o as [[]|e].
  - intros [= <- <-]. by cbn.
  - intros Hrun. apply Hhandler in Hrun. rewrite Hrun. by cbn.
Qed.

(** *** The three endings *)

Lemma caption_contains (title : pyval) :
  Str.occurs_in (py_str title) (caption title)
  ∧ Str.occurs_in success_marker (caption title).
Proof.
  unfold caption. split.
  - eexists "🎵 *", _. reflexivity.
  - exists ("🎵 *" +:+ py_str title +:+ "*

"), "".
    by rewrite string_app_nil_r, !string_app_assoc.
Qed.

(** C8, as the code has it.  When the download has produced an existing
    file of at most 50 * 1024 * 1024 bytes and the chat framework accepts
    the "uploading" notice, the upload and the deletion, the handler
    returns normally having made exactly these calls: the status message,
    the extractor's two calls with the stripped message text and the
    template under the temporary directory, the notice, one [reply_video]
    whose caption contains the title and the success marker, and the
    deletion of the status message. *)
Theorem small_file_is_relayed (text : string) (w w' : world)
    (pm : nat) (tmp p : string) (title : pyval) (size : N) :
  downloads Ω text w pm tmp (RPair (Some p) title) w' →
  Fs.getsize (fs w') p = Some size →
  (size ≤ 50 * 1024 * 1024)%N →
  chat_error Ω (EditText pm uploading_text) = None →
  chat_error Ω (ReplyVideo p (caption title) "Markdown") = None →
  chat_error Ω (DeleteMessage pm) = None →
  ∃ wf,
    download_tiktok_video Ω text w = (Ret (), wf)
    ∧ calls_since w wf
      = [ReplyText processing_text;
         YdlExtractInfo (Str.strip text);
         YdlDownload (Str.strip text) (outtmpl_for tmp);
         EditText pm uploading_text;
         ReplyVideo p (caption title) "Markdown";
         DeleteMessage pm]
    ∧ length (filter (λ c, is_upload c = true) (calls_since w wf)) = 1
    ∧ Str.occurs_in (py_str title) (caption title)
    ∧ Str.occurs_in success_marker (caption title)
    ∧ pm = next_msg w.
Proof.
  intros Hd Hs Hle Hc1 Hc2 Hc3.
  destruct (downloads_on_disk _ _ _ _ _ _ _ Hd) as [Hne Hp].
  destruct (downloads_path _ _ _ _ _ _ _ Hd) as (Hpm & _ & _ & Htr & _ & _).
  rewrite (handler_after_download _ _ _ _ _ _ Hd).
  unfold try_except, finally.
  rewrite (relay_within_limit _ _ _ _ _ Hne Hp Hs Hle).
  pose proof (getsize_isfile _ _ _ Hs) as Hfile.
  unfold bind, edit_text, reply_video, delete_message, chat, sent_message, open_rb.
  rewrite Hc1. cbn. rewrite Hfile, Hc2. cbn. rewrite Hc3.
  eexists. split; [reflexivity|].
  erewrite calls_since_app;
    [|cbn; rewrite Htr, <- !app_assoc; cbn; reflexivity].
  destruct (caption_contains title) as [Ht Hm].
  by repeat split.
Qed.

(** The downloader hands back the pair of [None]s, or a path that is not
    on the disk: the status message is edited to the "failed to download"
    text, and the handler returns normally when that edit is accepted. *)
Lemma no_file_gives_failed_text (text : string) (w w' : world)
    (pm : nat) (tmp : string) (path : option string) (title : pyval) :
  downloads Ω text w pm tmp (RPair path title) w' →
  (path = None ∨ ∃ p, path = Some p ∧ Fs.path_exists (fs w') p = false) →
  ∃ out wf,
    download_tiktok_video Ω text w = (out, wf)
    ∧ EditText pm failed_text ∈ trace wf
    ∧ (chat_error Ω (EditText pm failed_text) = None → out = Ret ()).
Proof.
  intros Hd Hpath.
  rewrite (handler_after_download _ _ _ _ _ _ Hd).
  assert (relay Ω pm (RPair path title) w' = edit_text Ω pm failed_text w') as Hrelay.
  { destruct Hpath as [->|(p & -> & Hp)];
      [apply relay_no_path | by apply relay_missing]. }
  unfold try_except, finally. rewrite Hrelay, edit_text_run.
  destruct (chat_error Ω (EditText pm failed_text)) as [e|].
  - unfold bind, logger_error, modify. rewrite edit_text_run.
    eexists _, _. split; [reflexivity|]. split; [|done].
    cbn. rewrite elem_of_app. left. rewrite elem_of_app. right. list_in.
  - eexists _, _. split; [reflexivity|]. split; [|done].
    cbn. rewrite elem_of_app. right. list_in.
Qed.

(** The downloader runs off its end: unpacking its bare [None] raises,
    and the handler reports the general error, not the download failure. *)
Lemma bare_None_gives_error_text (text : string) (w w' : world)
    (pm : nat) (tmp : string) :
  downloads Ω text w pm tmp RNone w' →
  ∃ out wf,
    download_tiktok_video Ω text w = (out, wf)
    ∧ trace wf = (trace w' ++ [EditText pm error_text])%list
    ∧ log wf = (log w' ++ ["Error in download_tiktok_video: " +:+ exn_msg unpack_None])%list.
Proof.
  intros Hd.
  rewrite (handler_after_download _ _ _ _ _ _ Hd).
  unfold try_except, finally. rewrite relay_bare_None.
  unfold bind, logger_error, modify. rewrite edit_text_run.
  eexists _, _. split; [reflexivity|]. done.
Qed.

End HandlerFacts.

(** ** main *)

Section MainFacts.
Context (environ : gmap string string).

(** Line 18 binds [TOKEN] to what the environment holds under BOT_TOKEN. *)
Lemma TOKEN_is_bound :
  module_globals environ !! "TOKEN" = Some (OValue (getenv environ "BOT_TOKEN")).
Proof. vm_compute. reflexivity. Qed.

(** No line of the module binds [BOT_TOKEN], the name line 195 reads. *)
Lemma BOT_TOKEN_is_unbound :
  module_globals environ !! "BOT_TOKEN" = None
  ∧ bool_decide ("BOT_TOKEN" ∈ builtins) = false.
Proof. split; vm_compute; reflexivity. Qed.

(** C3, which the code breaks.  Whatever the environment holds, [main] raises
    [NameError] at line 195, where it reads the unbound name [BOT_TOKEN]:
    no application is built, no handler is bound, and polling is never
    entered. *)
Theorem main_raises_NameError (b : bot) :
  main (module_globals environ) b = (Raise (NameError "BOT_TOKEN"), b).
Proof.
  destruct BOT_TOKEN_is_unbound as [Hg Hb].
  assert (load_name (module_globals environ) "Application" b
          = (Ret (OClass "Application"), b)) as Happ.
  { unfold load_name.
    assert (module_globals environ !! "Application" = Some (OClass "Application")) as ->
      by (vm_compute; reflexivity).
    reflexivity. }
  assert (load_name (module_globals environ) "BOT_TOKEN" b
          = (Raise (NameError "BOT_TOKEN"), b)) as Htok.
  { unfold load_name. by rewrite Hg, Hb. }
  unfold main.
  rewrite (bind_Ret _ _ _ _ _ Happ).
  by rewrite (bind_Raise _ _ _ _ _ Htok).
Qed.

End MainFacts.

(** ** The theorems at concrete inputs *)

Section Instances.
#[local] Existing Instance Str.ascii_builtins.

Lemma too_large_is_rejected_without_upload_witness :
  ∃ out wf,
    download_tiktok_video (Demo.good "Example.mp4" 52428801)
      "https://vt.tiktok.com/ZSAbC123" empty_world = (out, wf)
    ∧ EditText 0 too_large_text ∈ calls_since empty_world wf
    ∧ (∀ c, c ∈ calls_since empty_world wf → is_upload c = false)
    ∧ (EditText 0 uploading_text ∉ calls_since empty_world wf)
    ∧ (chat_error (Demo.good "Example.mp4" 52428801) (EditText 0 too_large_text) = None
       → out = Ret ()).
Proof.
  eapply (too_large_is_rejected_without_upload (Demo.good "Example.mp4" 52428801)
            "https://vt.tiktok.com/ZSAbC123" empty_world _ 0 "/tmp/tmpa1b2c3"
            "/tmp/tmpa1b2c3/Example.mp4" (VStr "Example") 52428801).
  - split; [reflexivity|]. eexists _, _. repeat split; vm_compute; reflexivity.
  - vm_compute; reflexivity.
  - reflexivity.
Defined.

Lemma size_check_is_strict_witness :
  ∃ out wf,
    download_tiktok_video (Demo.good "Example.mp4" (50 * 1024 * 1024))
      "https://vt.tiktok.com/ZSAbC123" empty_world = (out, wf)
    ∧ (EditText 0 too_large_text ∈ calls_since empty_world wf
       ↔ (50 * 1024 * 1024 < 50 * 1024 * 1024)%N)
    ∧ (EditText 0 uploading_text ∈ calls_since empty_world wf
       ↔ (50 * 1024 * 1024 ≤ 50 * 1024 * 1024)%N)
    ∧ ((50 * 1024 * 1024 ≤ 50 * 1024 * 1024)%N →
       chat_error (Demo.good "Example.mp4" (50 * 1024 * 1024))
         (EditText 0 uploading_text) = None →
       ReplyVideo "/tmp/tmpa1b2c3/Example.mp4" (caption (VStr "Example")) "Markdown"
         ∈ calls_since empty_world wf).
Proof.
  eapply (size_check_is_strict (Demo.good "Example.mp4" (50 * 1024 * 1024))
            "https://vt.tiktok.com/ZSAbC123" empty_world _ 0 "/tmp/tmpa1b2c3"
            "/tmp/tmpa1b2c3/Example.mp4" (VStr "Example") (50 * 1024 * 1024)).
  - split; [reflexivity|]. eexists _, _. repeat split; vm_compute; reflexivity.
  - vm_compute; reflexivity.
Defined.

Lemma temporary_directory_is_removed_witness :
  fs (download_tiktok_video (Demo.good "Example.mp4" 1000)
        "https://vt.tiktok.com/ZSAbC123" empty_world).2 = fs empty_world
  ∧ ∀ tmp, fresh_tmp (Demo.good "Example.mp4" 1000) (fs empty_world) = Some tmp →
           Fs.path_exists
             (fs (download_tiktok_video (Demo.good "Example.mp4" 1000)
                    "https://vt.tiktok.com/ZSAbC123" empty_world).2) tmp = false.
Proof.
  eapply (temporary_directory_is_removed (Demo.good "Example.mp4" 1000)
            "https://vt.tiktok.com/ZSAbC123" empty_world).
  apply surjective_pairing.
Defined.

Lemma download_video_success_witness :
  ∃ title w',
    download_video (Demo.good "Example.mp4" 1000) Demo.url Demo.tmp Demo.in_tmp
    = (Ret (RPair (Some (Path.join Demo.tmp "Example.mp4")) title), w')
    ∧ match Demo.info !! "title" with
      | Some t => title = t
      | None => title = VStr "TikTok_Video"
      end
    ∧ (Path.isabs Demo.tmp = true →
       Path.isabs (Path.join Demo.tmp "Example.mp4") = true).
Proof.
  eapply (download_video_success (Demo.good "Example.mp4" 1000) Demo.url Demo.tmp
            Demo.in_tmp Demo.info [] [] "Example.mp4").
  - reflexivity.
  - reflexivity.
  - vm_compute; reflexivity.
  - intros f Hf. by apply elem_of_nil in Hf.
  - by exists "Example".
Defined.

(** C6 does not hold as stated: given a relative directory, the path that comes
    back is relative. *)
Lemma download_video_relative_path :
  (download_video (Demo.good "Example.mp4" 1000) Demo.url "videos" Demo.in_videos).1
  = Ret (RPair (Some "videos/Example.mp4") (VStr "Example"))
  ∧ Path.isabs "videos/Example.mp4" = false.
Proof. split; vm_compute; reflexivity. Qed.

Lemma small_file_is_relayed_witness :
  ∃ wf,
    download_tiktok_video (Demo.good "Example.mp4" 1000) Demo.url empty_world
    = (Ret (), wf)
    ∧ calls_since empty_world wf
      = [ReplyText processing_text;
         YdlExtractInfo (Str.strip Demo.url);
         YdlDownload (Str.strip Demo.url) (outtmpl_for Demo.tmp);
         EditText 0 uploading_text;
         ReplyVideo "/tmp/tmpa1b2c3/Example.mp4" (caption (VStr "Example")) "Markdown";
         DeleteMessage 0]
    ∧ length (filter (λ c, is_upload c = true) (calls_since empty_world wf)) = 1
    ∧ Str.occurs_in (py_str (VStr "Example")) (caption (VStr "Example"))
    ∧ Str.occurs_in success_marker (caption (VStr "Example"))
    ∧ 0 = next_msg empty_world.
Proof.
  eapply (small_file_is_relayed (Demo.good "Example.mp4" 1000) Demo.url empty_world
            _ 0 Demo.tmp "/tmp/tmpa1b2c3/Example.mp4" (VStr "Example") 1000).
  - split; [reflexivity|]. eexists _, _. repeat split; vm_compute; reflexivity.
  - vm_compute; reflexivity.
  - vm_compute; discriminate.
  - reflexivity.
  - reflexivity.
  - reflexivity.
Defined.

(** C8 does not hold as stated, on two counts.  With the download done and the file
    within the limit, an upload the chat framework refuses leaves the
    status message in place, edited to the error text; and a message sent
    with a leading blank reaches the extractor without it. *)
Lemma upload_failure_keeps_status_message :
  ((∃ w', downloads (Demo.upload_fails "Example.mp4" 1000) Demo.url empty_world
            0 Demo.tmp (RPair (Some "/tmp/tmpa1b2c3/Example.mp4") (VStr "Example")) w'
          ∧ Fs.getsize (fs w') "/tmp/tmpa1b2c3/Example.mp4" = Some 1000%N)
   ∧ (1000 ≤ 50 * 1024 * 1024)%N
   ∧ trace (download_tiktok_video (Demo.upload_fails "Example.mp4" 1000)
              Demo.url empty_world).2
     = [ReplyText processing_text;
        YdlExtractInfo Demo.url;
        YdlDownload Demo.url (VStr "/tmp/tmpa1b2c3/%(title)s.%(ext)s");
        EditText 0 uploading_text;
        ReplyVideo "/tmp/tmpa1b2c3/Example.mp4" (caption (VStr "Example")) "Markdown";
        EditText 0 error_text]
   ∧ DeleteMessage 0
     ∉ trace (download_tiktok_video (Demo.upload_fails "Example.mp4" 1000)
                Demo.url empty_world).2)
  ∧ (trace (download_tiktok_video (Demo.good "Example.mp4" 1000)
              " https://vt.tiktok.com/ZSAbC123" empty_world).2
     = [ReplyText processing_text;
        YdlExtractInfo "https://vt.tiktok.com/ZSAbC123";
        YdlDownload "https://vt.tiktok.com/ZSAbC123"
          (VStr "/tmp/tmpa1b2c3/%(title)s.%(ext)s");
        EditText 0 uploading_text;
        ReplyVideo "/tmp/tmpa1b2c3/Example.mp4" (caption (VStr "Example")) "Markdown";
        DeleteMessage 0]
     ∧ " https://vt.tiktok.com/ZSAbC123" ≠ "https://vt.tiktok.com/ZSAbC123").
Proof.
  assert (trace (download_tiktok_video (Demo.upload_fails "Example.mp4" 1000)
                   Demo.url empty_world).2
          = [ReplyText processing_text;
             YdlExtractInfo Demo.url;
             YdlDownload Demo.url (VStr "/tmp/tmpa1b2c3/%(title)s.%(ext)s");
             EditText 0 uploading_text;
             ReplyVideo "/tmp/tmpa1b2c3/Example.mp4" (caption (VStr "Example")) "Markdown";
             EditText 0 error_text]) as Htrace by (vm_compute; reflexivity).
  split; [split; [|split; [|split]] | split].
  - eexists. split.
    + split; [reflexivity|]. eexists _, _. repeat split; vm_compute; reflexivity.
    + vm_compute; reflexivity.
  - vm_compute; discriminate.
  - exact Htrace.
  - revert Htrace.
    generalize (trace (download_tiktok_video (Demo.upload_fails "Example.mp4" 1000)
                         Demo.url empty_world).2).
    intros l -> Hin. list_out Hin.
  - vm_compute; reflexivity.
  - discriminate.
Qed.

(** C2, which the code breaks.  The download leaves a file that does not end
    in '.mp4': [download_video] runs off its end and returns the bare
    [None], not the pair of [None]s, and logs nothing. *)
Lemma download_video_without_mp4 :
  (download_video (Demo.good "Example.webm" 1000) Demo.url Demo.tmp Demo.in_tmp).1
  = Ret RNone
  ∧ log (download_video (Demo.good "Example.webm" 1000) Demo.url Demo.tmp
           Demo.in_tmp).2 = []
  ∧ Fs.listdir
      (fs (download_video (Demo.good "Example.webm" 1000) Demo.url Demo.tmp
             Demo.in_tmp).2) Demo.tmp = Some ["Example.webm"].
Proof. repeat split; vm_compute; reflexivity. Qed.

(** C7, which the code breaks.  With no '.mp4' file found, the downloader's
    bare [None] cannot be unpacked: the handler logs a [TypeError] and
    edits the status message to the general error text; the "failed to
    download" text is never sent. *)
Lemma no_mp4_gives_error_text :
  download_tiktok_video (Demo.good "Example.webm" 1000) Demo.url empty_world
  = (Ret (),
     World ∅ (<["outtmpl" := outtmpl_for Demo.tmp]> initial_ydl_opts)
       ["Error in download_tiktok_video: cannot unpack non-iterable NoneType object"]
       [ReplyText processing_text;
        YdlExtractInfo Demo.url;
        YdlDownload Demo.url (outtmpl_for Demo.tmp);
        EditText 0 error_text]
       1)
  ∧ EditText 0 failed_text
    ∉ trace (download_tiktok_video (Demo.good "Example.webm" 1000) Demo.url
               empty_world).2.
Proof.
  assert (download_tiktok_video (Demo.good "Example.webm" 1000) Demo.url empty_world
          = (Ret (),
             World ∅ (<["outtmpl" := outtmpl_for Demo.tmp]> initial_ydl_opts)
               ["Error in download_tiktok_video: cannot unpack non-iterable NoneType object"]
               [ReplyText processing_text;
                YdlExtractInfo Demo.url;
                YdlDownload Demo.url (outtmpl_for Demo.tmp);
                EditText 0 error_text]
               1)) as Hrun by (vm_compute; reflexivity).
  split; [exact Hrun|].
  rewrite Hrun. cbn [snd trace]. intros Hin. list_out Hin.
Qed.

End Instances.

(** ** More on the downloader (lines 33-53) *)

Section DownloaderMore.
Context (Ω : oracle).

(** Every exception of the body is caught at line 51: whatever the
    extractor and the disk do, [download_video] returns to its caller. *)
Theorem download_video_never_raises (url output_path : string) (w : world) :
  ∃ r w', download_video Ω url output_path w = (Ret r, w').
Proof. apply download_video_returns. Qed.

(** The pair of [None]s is returned exactly when an error was caught, and
    then exactly one line is logged; on every other return the log is as
    it was. *)
Theorem download_video_logs_iff_caught (url output_path : string) (w w' : world)
    (r : dl_result) :
  download_video Ω url output_path w = (Ret r, w') →
  (r = RPair None VNone
   ∧ ∃ e, log w' = (log w ++ ["Error downloading video: " +:+ exn_msg e])%list)
  ∨ ((r = RNone ∨ ∃ p title, r = RPair (Some p) title) ∧ log w' = log w).
Proof.
  unfold download_video, try_except, logger_error, bind, modify, ydl_extract_info,
    info_get, ret, raise, ydl_download_to, os_listdir.
  destruct (extract_info Ω url) as [e| |info]; cbn.
  - intros [= <- <-]. left. split; [done|]. by exists e.
  - intros [= <- <-]. left. split; [done|]. by exists None_has_no_get.
  - destruct (dl_error (ydl_download Ω url)) as [e|]; cbn.
    { intros [= <- <-]. left. split; [done|]. by exists e. }
    destruct (Fs.listdir _ _) as [names|]; cbn.
    2: { intros [= <- <-]. left. split; [done|].
         by exists (FileNotFoundError output_path). }
    destruct (find _ names) as [file|]; cbn; intros [= <- <-]; right.
    + split; [|done]. right. by eexists _, _.
    + split; [|done]. by left.
Qed.




(** When extraction raises, nothing is downloaded: the only call made is
    [extract_info], the disk is as it was, and the error is logged. *)
Theorem extraction_error_skips_download (url output_path : string) (w : world)
    (e : exn) :
  extract_info Ω url = ExtractRaises e →
  ∃ w',
    download_video Ω url output_path w = (Ret (RPair None VNone), w')
    ∧ trace w' = (trace w ++ [YdlExtractInfo url])%list
    ∧ fs w' = fs w
    ∧ log w' = (log w ++ ["Error downloading video: " +:+ exn_msg e])%list.
Proof.
  intros He.
  unfold download_video, try_except, bind, modify, ydl_extract_info.
  rewrite He. cbn. eauto.
Qed.

(** When the download raises, what it had already written stays on the
    disk: [download_video] logs the error and returns the pair of [None]s
    without cleaning up. *)
Theorem download_error_leaves_files (url output_path : string) (w : world)
    (info : gmap string pyval) (e : exn) :
  extract_info Ω url = ExtractInfo info →
  dl_error (ydl_download Ω url) = Some e →
  ∃ w',
    download_video Ω url output_path w = (Ret (RPair None VNone), w')
    ∧ trace w' = (trace w ++ [YdlExtractInfo url;
                              YdlDownload url (outtmpl_for output_path)])%list
    ∧ fs w' = Fs.write output_path (written (ydl_download Ω url)) (fs w)
    ∧ log w' = (log w ++ ["Error downloading video: " +:+ exn_msg e])%list.
Proof.
  intros He Hd.
  unfold download_video, try_except, bind, modify, ydl_extract_info, info_get,
    ret, ydl_download_to.
  rewrite He. cbn. rewrite Hd, outtmpl_after_set. cbn.
  eexists. split; [reflexivity|]. cbn. by rewrite <- app_assoc.
Qed.


(** A path that comes back is never empty and names a file that is on
    the disk and has a size: the handler's check at line 140 cannot fail
    for it. *)
Theorem returned_path_is_on_disk (url output_path : string) (w w' : world)
    (p : string) (title : pyval) :
  download_video Ω url output_path w = (Ret (RPair (Some p) title), w') →
  truthy (Some p) = true
  ∧ Fs.path_exists (fs w') p = true
  ∧ ∃ size, Fs.getsize (fs w') p = Some size.
Proof.
  intros Hrun. apply downloaded_path_on_disk in Hrun as (Hne & Hp & Hs).
  split; [|done]. cbn. by apply negb_true_iff, String.eqb_neq.
Qed.

Lemma pair_without_path (url output_path : string) (w w' : world) (title : pyval) :
  download_video Ω url output_path w = (Ret (RPair None title), w') →
  title = VNone.
Proof.
  unfold download_video, try_except, logger_error, bind, modify, ydl_extract_info,
    info_get, ret, raise, ydl_download_to, os_listdir.
  intros Hrun. by repeat (case_match; simplify_eq; cbn in * ).
Qed.

End DownloaderMore.

(** ** The shape of a handling *)

Section HandlerShape.
Context `{Str.Builtins} (Ω : oracle).

Lemma download_video_calls (url output_path : string) (w w' : world)
    (o : outcome dl_result) :
  download_video Ω url output_path w = (o, w') →
  trace w' = (trace w ++ [YdlExtractInfo url])%list
  ∨ trace w' = (trace w ++ [YdlExtractInfo url;
                            YdlDownload url (outtmpl_for output_path)])%list.
Proof.
  unfold download_video, try_except, logger_error, bind, modify, ydl_extract_info,
    info_get, ret, raise, ydl_download_to, os_listdir.
  destruct (extract_info Ω url) as [e| |info]; cbn; [intros [= <- <-]; by left..|].
  rewrite outtmpl_after_set. intros Hrun. right.
  repeat (case_match; simplify_eq; cbn in * ); by rewrite <- app_assoc.
Qed.

(** What follows the downloader's answer [r]: the calls planned for it,
    as far as the chat framework lets them go, and the answer to the last
    of them as the handler's outcome. *)
Lemma after_download_shape (pm : nat) (tmp : string) (r : dl_result) (w' wf : world)
    (out : outcome ()) :
  try_except
    (finally (relay Ω pm r) (set_fs (Fs.rmtree tmp)))
    (λ e, logger_error ("Error in download_tiktok_video: " +:+ exn_msg e);;
          edit_text Ω pm error_text) w' = (out, wf) →
  (∀ p title, r = RPair (Some p) title →
     p ≠ "" ∧ Fs.path_exists (fs w') p = true
     ∧ ∃ size, Fs.getsize (fs w') p = Some size) →
  ∃ tail c,
    trace wf = (trace w' ++ tail)%list
    ∧ last tail = Some c
    ∧ out = chat_answer Ω c
    ∧ match r with
      | RNone => tail = [EditText pm error_text]
      | RPair path title =>
          ∃ size, (∀ p, path = Some p → Fs.getsize (fs w') p = Some size)
                  ∧ tail = attempted Ω pm (planned pm path title size)
      end.
Proof.
  intros Hrun Hdisk. revert Hrun. unfold try_except, finally, chat_answer.
  destruct r as [|[p|] title].
  - rewrite relay_bare_None. unfold bind, logger_error, modify.
    rewrite edit_text_run. intros [= <- <-].
    eexists _, _. split; [reflexivity|]. split; [reflexivity|]. by split.
  - destruct (Hdisk p title eq_refl) as (Hne & Hp & size & Hs).
    destruct (N.lt_ge_cases size_limit size) as [Hlt|Hle].
    + rewrite (relay_too_large _ _ _ _ _ _ Hne Hp Hs Hlt), edit_text_run.
      unfold bind, logger_error, modify, edit_text, chat.
      apply N.ltb_lt in Hlt.
      destruct (chat_error Ω (EditText pm too_large_text)) eqn:Hc1;
        [destruct (chat_error Ω (EditText pm error_text)) eqn:Hc2|];
        intros [= <- <-];
        (eexists _, _; split; [cbn; try rewrite <- app_assoc; reflexivity|];
         split; [reflexivity|]; split; [by rewrite ?Hc1, ?Hc2|];
         exists size; split; [by intros ? [= <-]|];
         unfold planned; rewrite Hlt; cbn [attempted]; by rewrite ?Hc1).
    + rewrite (relay_within_limit _ _ _ _ _ _ Hne Hp Hs Hle).
      pose proof (getsize_isfile _ _ _ Hs) as Hfile.
      apply N.ltb_ge in Hle.
      unfold bind, logger_error, modify, edit_text, reply_video, delete_message,
        chat, sent_message, open_rb.
      destruct (chat_error Ω (EditText pm uploading_text)) eqn:Hc1; cbn;
        [|rewrite Hfile; cbn;
          destruct (chat_error Ω (ReplyVideo p (caption title) "Markdown")) eqn:Hc2; cbn;
          [|destruct (chat_error Ω (DeleteMessage pm)) eqn:Hc3; cbn]];
        try (destruct (chat_error Ω (EditText pm error_text)) eqn:Hc4);
        intros [= <- <-];
        (eexists _, _; split; [cbn; rewrite <- ?app_assoc; reflexivity|];
         split; [reflexivity|]; split; [by rewrite ?Hc3, ?Hc4|];
         exists size; split; [by intros ? [= <-]|];
         unfold planned; rewrite Hle; cbn [attempted];
         by rewrite ?Hc1, ?Hc2, ?Hc3).
  - rewrite relay_no_path, edit_text_run.
    unfold bind, logger_error, modify, edit_text, chat.
    destruct (chat_error Ω (EditText pm failed_text)) eqn:Hc1;
      [destruct (chat_error Ω (EditText pm error_text)) eqn:Hc2|];
      intros [= <- <-];
      (eexists _, _; split; [cbn; try rewrite <- app_assoc; reflexivity|];
       split; [reflexivity|]; split; [by rewrite ?Hc1, ?Hc2|];
       exists 0%N; split; [done|]; cbn [planned attempted]; by rewrite ?Hc1).
Qed.

(** Every way a handling can go. *)
Lemma handler_cases (text : string) (w wf : world) (out : outcome ()) :
  download_tiktok_video Ω text w = (out, wf) →
  (is_tiktok_url (Str.strip text) = false
   ∧ trace wf = (trace w ++ [ReplyText invalid_url_text])%list
   ∧ out = chat_answer Ω (ReplyText invalid_url_text))
  ∨ (is_tiktok_url (Str.strip text) = true
     ∧ ((∃ e, chat_error Ω (ReplyText processing_text) = Some e
              ∧ trace wf = (trace w ++ [ReplyText processing_text])%list
              ∧ out = Raise e)
        ∨ (chat_error Ω (ReplyText processing_text) = None
           ∧ fresh_tmp Ω (fs w) = None
           ∧ trace wf = (trace w ++ [ReplyText processing_text;
                                     EditText (next_msg w) error_text])%list
           ∧ out = chat_answer Ω (EditText (next_msg w) error_text))
        ∨ (∃ tmp r w' ycalls tail c,
             downloads Ω text w (next_msg w) tmp r w'
             ∧ trace w' = (trace w ++ ReplyText processing_text :: ycalls)%list
             ∧ (ycalls = [YdlExtractInfo (Str.strip text)]
                ∨ ycalls = [YdlExtractInfo (Str.strip text);
                            YdlDownload (Str.strip text) (outtmpl_for tmp)])
             ∧ trace wf = (trace w' ++ tail)%list
             ∧ last tail = Some c
             ∧ out = chat_answer Ω c
             ∧ match r with
               | RNone => tail = [EditText (next_msg w) error_text]
               | RPair path title =>
                   ∃ size,
                     (∀ p, path = Some p → Fs.getsize (fs w') p = Some size)
                     ∧ tail = attempted Ω (next_msg w) (planned (next_msg w) path title size)
               end))).
Proof.
  intros Hrun.
  destruct (is_tiktok_url (Str.strip text)) eqn:Hurl.
  2: { left. revert Hrun. unfold download_tiktok_video. rewrite Hurl. cbn [negb].
       unfold reply_text, chat, sent_message, bind, ret, chat_answer.
       destruct (chat_error Ω (ReplyText invalid_url_text)); by intros [= <- <-]. }
  right. split; [done|].
  destruct (chat_error Ω (ReplyText processing_text)) as [e|] eqn:Hc.
  { left. exists e. revert Hrun. unfold download_tiktok_video. rewrite Hurl. cbn [negb].
    unfold bind at 1. unfold reply_text, chat, bind. rewrite Hc.
    by intros [= <- <-]. }
  right.
  destruct (fresh_tmp Ω (fs w)) as [tmp|] eqn:Hf.
  2: { left. revert Hrun. unfold download_tiktok_video. rewrite Hurl. cbn [negb].
       unfold bind at 1. unfold reply_text, chat, bind, sent_message. rewrite Hc.
       unfold try_except, with_TemporaryDirectory, bind, mkdtemp. cbn. rewrite Hf.
       unfold logger_error, modify, chat_answer. rewrite edit_text_run.
       intros [= <- <-]. do 2 (split; [done|]).
       split; [cbn; by rewrite <- app_assoc | done]. }
  right.
  destruct (handler_reaches_download Ω text w tmp Hurl Hc Hf) as (r & w' & Hd).
  rewrite (handler_after_download _ _ _ _ _ _ _ Hd) in Hrun.
  assert (∃ ycalls,
            trace w' = (trace w ++ ReplyText processing_text :: ycalls)%list
            ∧ (ycalls = [YdlExtractInfo (Str.strip text)]
               ∨ ycalls = [YdlExtractInfo (Str.strip text);
                           YdlDownload (Str.strip text) (outtmpl_for tmp)]))
    as (ycalls & Htr & Hy).
  { destruct Hd as [_ (w1 & w2 & Hr & Hm & Hdl)].
    unfold reply_text, chat, bind, sent_message in Hr. rewrite Hc in Hr.
    injection Hr as <-. unfold mkdtemp in Hm. cbn in Hm. rewrite Hf in Hm.
    injection Hm as <-.
    apply download_video_calls in Hdl as [Hdl|Hdl]; cbn in Hdl;
      rewrite <- app_assoc in Hdl; eexists; split; [exact Hdl| |exact Hdl|]; auto. }
  apply after_download_shape in Hrun as (tail & c & Htail & Hlast & Hout & Hshape).
  2: { intros p title ->. destruct Hd as [_ (w1 & w2 & _ & _ & Hdl)].
       by apply downloaded_path_on_disk in Hdl. }
  by exists tmp, r, w', ycalls, tail, c.
Qed.

Lemma in_attempted (pm : nat) (c : call) (cs : list call) :
  c ∈ attempted Ω pm cs → c = EditText pm error_text ∨ c ∈ cs.
Proof.
  induction cs as [|c1 cs IH]; cbn [attempted]; intros Hin.
  - by apply elem_of_nil in Hin.
  - apply elem_of_cons in Hin as [->|Hin]; [right; apply list_elem_of_here|].
    destruct (chat_error Ω c1).
    + apply list_elem_of_singleton in Hin. by left.
    + destruct (IH Hin) as [->|Hcs]; [by left|]. right. by apply list_elem_of_further.
Qed.

(** A planned call other than the first is made only once the first was
    accepted. *)
Lemma in_attempted_later (pm : nat) (c c1 : call) (cs : list call) :
  c ∈ attempted Ω pm (c1 :: cs) → c ≠ c1 → c ≠ EditText pm error_text →
  chat_error Ω c1 = None ∧ c ∈ attempted Ω pm cs.
Proof.
  cbn [attempted]. intros Hin Hne Herr.
  apply elem_of_cons in Hin as [->|Hin]; [done|].
  destruct (chat_error Ω c1); [|done].
  by apply list_elem_of_singleton in Hin.
Qed.

Lemma last_attempted (pm : nat) (cs : list call) :
  cs ≠ [] → ∃ c, last (attempted Ω pm cs) = Some c.
Proof.
  destruct cs as [|c1 cs]; [done|]. intros _. cbn [attempted].
  rewrite last_cons. destruct (last _); eauto.
Qed.

(** One status edit, the texts the handler may put in it, and nothing
    but edits and one deletion of that message besides the upload. *)
Lemma planned_calls (pm : nat) (path : option string) (title : pyval) (size : N)
    (c : call) :
  c ∈ planned pm path title size →
  (path = None ∧ c = EditText pm failed_text)
  ∨ ∃ p, path = Some p
         ∧ (((size_limit < size)%N ∧ c = EditText pm too_large_text)
            ∨ ((size ≤ size_limit)%N
               ∧ (c = EditText pm uploading_text
                  ∨ c = ReplyVideo p (caption title) "Markdown"
                  ∨ c = DeleteMessage pm))).
Proof.
  unfold planned. destruct path as [p|].
  - intros Hin. right. exists p. split; [done|].
    destruct (N.ltb_spec size_limit size) as [Hlt|Hle].
    + left. apply list_elem_of_singleton in Hin. done.
    + right. split; [done|].
      repeat (apply elem_of_cons in Hin as [->|Hin]); auto.
      by apply elem_of_nil in Hin.
  - intros Hin. left. by apply list_elem_of_singleton in Hin.
Qed.

Lemma invalid_url_shape (text : string) (w : world) :
  is_tiktok_url (Str.strip text) = false →
  ∃ wf,
    download_tiktok_video Ω text w
    = (chat_answer Ω (ReplyText invalid_url_text), wf)
    ∧ trace wf = (trace w ++ [ReplyText invalid_url_text])%list
    ∧ fs wf = fs w ∧ log wf = log w.
Proof.
  intros Hurl. unfold download_tiktok_video. rewrite Hurl. cbn [negb].
  unfold reply_text, chat, sent_message, bind, ret, chat_answer.
  destruct (chat_error Ω (ReplyText invalid_url_text)); by eexists.
Qed.

(** The calls of a handling, and the answer to the last of them. *)
Lemma handler_last_call (text : string) (w wf : world) (out : outcome ()) :
  download_tiktok_video Ω text w = (out, wf) →
  ∃ c, last (calls_since w wf) = Some c ∧ out = chat_answer Ω c.
Proof.
  intros Hrun.
  destruct (handler_cases _ _ _ _ Hrun)
    as [(_ & Htr & Hout)
       |(_ & [(e & Hc & Htr & Hout)
             |[(_ & _ & Htr & Hout)
              |(tmp & r & w' & ycalls & tail & c & _ & Htr' & _ & Htr & Hlast & Hout & _)]])].
  - rewrite (calls_since_app _ _ _ Htr). by eexists.
  - rewrite (calls_since_app _ _ _ Htr). eexists. split; [done|].
    unfold chat_answer. by rewrite Hc.
  - rewrite (calls_since_app _ _ _ Htr). by eexists.
  - rewrite Htr', <- app_assoc in Htr.
    rewrite (calls_since_app _ _ _ Htr). exists c. split; [|done].
    rewrite last_app. by rewrite Hlast.
Qed.

End HandlerShape.

(** ** More on the handlers (lines 116-190) *)

Section HandlerMore.
Context `{Str.Builtins} (Ω : oracle).

(** A text the classifier rejects gets the format message and nothing
    else: no status message, no call to the extractor, and the disk, the
    log and the downloader's options are as they were.  The handler
    raises exactly when that one reply is refused. *)
Theorem invalid_url_is_only_answered (text : string) (w : world) :
  is_tiktok_url (Str.strip text) = false →
  ∃ wf,
    download_tiktok_video Ω text w
    = (chat_answer Ω (ReplyText invalid_url_text), wf)
    ∧ trace wf = (trace w ++ [ReplyText invalid_url_text])%list
    ∧ fs wf = fs w ∧ log wf = log w ∧ ydl_opts wf = ydl_opts w.
Proof.
  intros Hurl. unfold download_tiktok_video. rewrite Hurl. cbn [negb].
  unfold reply_text, chat, sent_message, bind, ret, chat_answer.
  destruct (chat_error Ω (ReplyText invalid_url_text)); by eexists.
Qed.

(** The status message is sent before the [try]: when the chat framework
    refuses it, its error reaches the caller and nothing else is done. *)
Theorem refused_status_message_aborts (text : string) (w : world) (e : exn) :
  is_tiktok_url (Str.strip text) = true →
  chat_error Ω (ReplyText processing_text) = Some e →
  download_tiktok_video Ω text w
  = (Raise e, add_call (ReplyText processing_text) w).
Proof.
  intros Hurl Hc. unfold download_tiktok_video. rewrite Hurl. cbn [negb].
  unfold bind at 1. unfold reply_text, chat, bind. by rewrite Hc.
Qed.

(** The handler makes at least one call, and its outcome is the chat
    framework's answer to the last call it makes: it raises only an error
    the chat framework raised, never one of the extractor or the disk. *)
Theorem handler_outcome_answers_last_call (text : string) (w wf : world)
    (out : outcome ()) :
  download_tiktok_video Ω text w = (out, wf) →
  ∃ c, last (calls_since w wf) = Some c ∧ out = chat_answer Ω c.
Proof. apply handler_last_call. Qed.

(** Whatever [reply_video] call the handler makes names the file the
    downloader returned, with the caption made of its title, and that file
    has at most 50 * 1024 * 1024 bytes; the "uploading" notice was
    accepted before. *)
Theorem upload_only_within_limit (text : string) (w wf : world) (out : outcome ())
    (video caption_sent parse_mode : string) :
  download_tiktok_video Ω text w = (out, wf) →
  ReplyVideo video caption_sent parse_mode ∈ calls_since w wf →
  ∃ tmp title w' size,
    downloads Ω text w (next_msg w) tmp (RPair (Some video) title) w'
    ∧ caption_sent = caption title
    ∧ parse_mode = "Markdown"
    ∧ Fs.getsize (fs w') video = Some size
    ∧ (size ≤ 50 * 1024 * 1024)%N
    ∧ chat_error Ω (EditText (next_msg w) uploading_text) = None.
Proof.
  intros Hrun Hin.
  destruct (handler_cases _ _ _ _ _ Hrun)
    as [(_ & Htr & _)
       |(_ & [(e & _ & Htr & _)
             |[(_ & _ & Htr & _)
              |(tmp & r & w' & ycalls & tail & c & Hd & Htr' & Hy & Htr & _ & _ & Hshape)]])].
  1-3: rewrite (calls_since_app _ _ _ Htr) in Hin; list_out Hin.
  rewrite Htr', <- app_assoc in Htr.
  rewrite (calls_since_app _ _ _ Htr) in Hin.
  apply elem_of_cons in Hin as [Hin|Hin]; [done|].
  apply elem_of_app in Hin as [Hin|Hin].
  { destruct Hy as [-> | ->]; list_out Hin. }
  destruct r as [|path title]; [subst tail; list_out Hin|].
  destruct Hshape as (size & Hsize & ->).
  pose proof Hin as Hplan. apply in_attempted in Hplan as [Hplan|Hplan]; [done|].
  apply planned_calls in Hplan
    as [[_ Hc]|(p & -> & [[_ Hc]|[Hle [Hc|[Hc|Hc]]]])]; try done.
  injection Hc as -> -> ->.
  unfold planned in Hin. apply N.ltb_ge in Hle. rewrite Hle in Hin.
  apply in_attempted_later in Hin as [Hacc _]; [|done..].
  exists tmp, title, w', size. apply N.ltb_ge in Hle.
  split; [exact Hd|]. do 2 (split; [done|]). split; [by apply Hsize|]. by split.
Qed.

(** The status message is deleted only after an upload the chat framework
    accepted; the deletion is of the status message itself. *)
Theorem status_deleted_only_after_upload (text : string) (w wf : world)
    (out : outcome ()) (msg : nat) :
  download_tiktok_video Ω text w = (out, wf) →
  DeleteMessage msg ∈ calls_since w wf →
  msg = next_msg w
  ∧ ∃ video title,
      ReplyVideo video (caption title) "Markdown" ∈ calls_since w wf
      ∧ chat_error Ω (ReplyVideo video (caption title) "Markdown") = None.
Proof.
  intros Hrun Hin.
  destruct (handler_cases _ _ _ _ _ Hrun)
    as [(_ & Htr & _)
       |(_ & [(e & _ & Htr & _)
             |[(_ & _ & Htr & _)
              |(tmp & r & w' & ycalls & tail & c & Hd & Htr' & Hy & Htr & _ & _ & Hshape)]])].
  1-3: rewrite (calls_since_app _ _ _ Htr) in Hin; list_out Hin.
  rewrite Htr', <- app_assoc in Htr.
  rewrite (calls_since_app _ _ _ Htr) in Hin |- *.
  apply elem_of_cons in Hin as [Hin|Hin]; [done|].
  apply elem_of_app in Hin as [Hin|Hin].
  { destruct Hy as [-> | ->]; list_out Hin. }
  destruct r as [|path title]; [subst tail; list_out Hin|].
  destruct Hshape as (size & Hsize & ->).
  pose proof Hin as Hplan. apply in_attempted in Hplan as [Hplan|Hplan]; [done|].
  apply planned_calls in Hplan
    as [[_ Hc]|(p & -> & [[_ Hc]|[Hle [Hc|[Hc|Hc]]]])]; try done.
  injection Hc as ->. split; [done|].
  unfold planned in Hin |- *. apply N.ltb_ge in Hle. rewrite Hle in Hin |- *.
  apply in_attempted_later in Hin as [Hacc1 Hin]; [|done..].
  apply in_attempted_later in Hin as [Hacc2 _]; [|done..].
  exists p, title. split; [|done].
  apply list_elem_of_further, elem_of_app. right.
  cbn [attempted]. rewrite Hacc1. list_in.
Qed.

(** A handling uploads at most once. *)
Theorem at_most_one_upload (text : string) (w wf : world) (out : outcome ()) :
  download_tiktok_video Ω text w = (out, wf) →
  (length (filter (λ c, is_upload c = true) (calls_since w wf)) ≤ 1)%nat.
Proof.
  intros Hrun.
  destruct (handler_cases _ _ _ _ _ Hrun)
    as [(_ & Htr & _)
       |(_ & [(e & _ & Htr & _)
             |[(_ & _ & Htr & _)
              |(tmp & r & w' & ycalls & tail & c & Hd & Htr' & Hy & Htr & _ & _ & Hshape)]])].
  1-3: rewrite (calls_since_app _ _ _ Htr); vm_compute; lia.
  rewrite Htr', <- app_assoc in Htr.
  rewrite (calls_since_app _ _ _ Htr).
  destruct r as [|path title].
  { subst tail. destruct Hy as [-> | ->]; vm_compute; lia. }
  destruct Hshape as (size & _ & ->).
  unfold planned. destruct path as [p|]; [destruct (size_limit <? size)%N|];
    cbn [attempted];
    repeat match goal with
           | |- context [chat_error Ω ?c] => destruct (chat_error Ω c)
           end;
    destruct Hy as [-> | ->]; vm_compute; lia.
Qed.

(** Every edit and every deletion the handler asks for is of the status
    message it sent, and an edit carries one of the four texts of lines
    144-176. *)
Theorem edits_target_status_message (text : string) (w wf : world)
    (out : outcome ()) (c : call) :
  download_tiktok_video Ω text w = (out, wf) →
  c ∈ calls_since w wf →
  match c with
  | EditText msg t =>
      msg = next_msg w
      ∧ (t = too_large_text ∨ t = uploading_text ∨ t = failed_text ∨ t = error_text)
  | DeleteMessage msg => msg = next_msg w
  | _ => True
  end.
Proof.
  intros Hrun Hin.
  destruct (handler_cases _ _ _ _ _ Hrun)
    as [(_ & Htr & _)
       |(_ & [(e & _ & Htr & _)
             |[(_ & _ & Htr & _)
              |(tmp & r & w' & ycalls & tail & c' & Hd & Htr' & Hy & Htr & _ & _ & Hshape)]])].
  1-3: rewrite (calls_since_app _ _ _ Htr) in Hin;
       repeat (apply elem_of_cons in Hin as [->|Hin]); auto;
       by apply elem_of_nil in Hin.
  rewrite Htr', <- app_assoc in Htr.
  rewrite (calls_since_app _ _ _ Htr) in Hin.
  apply elem_of_cons in Hin as [->|Hin]; [done|].
  apply elem_of_app in Hin as [Hin|Hin].
  { destruct Hy as [-> | ->];
      repeat (apply elem_of_cons in Hin as [->|Hin]); auto;
      by apply elem_of_nil in Hin. }
  destruct r as [|path title].
  { subst tail. apply list_elem_of_singleton in Hin as ->. auto. }
  destruct Hshape as (size & _ & ->).
  apply in_attempted in Hin as [->|Hplan]; [auto|].
  apply planned_calls in Hplan
    as [[_ ->]|(p & -> & [[_ ->]|[_ [->|[->| ->]]]])]; auto.
Qed.

(** The "failed to download" text is sent only when the downloader caught
    an error and returned the pair of [None]s. *)
Theorem failed_text_only_after_caught_error (text : string) (w wf : world)
    (out : outcome ()) (msg : nat) :
  download_tiktok_video Ω text w = (out, wf) →
  EditText msg failed_text ∈ calls_since w wf →
  ∃ tmp w', downloads Ω text w (next_msg w) tmp (RPair None VNone) w'.
Proof.
  intros Hrun Hin.
  destruct (handler_cases _ _ _ _ _ Hrun)
    as [(_ & Htr & _)
       |(_ & [(e & _ & Htr & _)
             |[(_ & _ & Htr & _)
              |(tmp & r & w' & ycalls & tail & c & Hd & Htr' & Hy & Htr & _ & _ & Hshape)]])].
  1-3: rewrite (calls_since_app _ _ _ Htr) in Hin; list_out Hin.
  rewrite Htr', <- app_assoc in Htr.
  rewrite (calls_since_app _ _ _ Htr) in Hin.
  apply elem_of_cons in Hin as [Hin|Hin]; [done|].
  apply elem_of_app in Hin as [Hin|Hin].
  { destruct Hy as [-> | ->]; list_out Hin. }
  destruct r as [|path title]; [subst tail; list_out Hin|].
  destruct Hshape as (size & _ & ->).
  apply in_attempted in Hin as [Hin|Hplan]; [done|].
  apply planned_calls in Hplan
    as [[-> _]|(p & -> & [[_ Hc]|[_ [Hc|[Hc|Hc]]]])]; try done.
  exists tmp, w'.
  destruct Hd as [Hurl (w1 & w2 & Hr & Hm & Hdl)].
  pose proof (pair_without_path Ω _ _ _ _ _ Hdl) as ->.
  split; [done|]. by exists w1, w2.
Qed.

(** An extraction error reaches the user as the "failed to download"
    text: the downloader logs it and returns the pair of [None]s, no
    download is attempted, the handler logs nothing of its own, and the
    temporary directory is gone afterwards. *)
Theorem extraction_error_is_reported (text : string) (w : world) (tmp : string)
    (e : exn) :
  is_tiktok_url (Str.strip text) = true →
  chat_error Ω (ReplyText processing_text) = None →
  fresh_tmp Ω (fs w) = Some tmp →
  extract_info Ω (Str.strip text) = ExtractRaises e →
  chat_error Ω (EditText (next_msg w) failed_text) = None →
  ∃ wf,
    download_tiktok_video Ω text w = (Ret (), wf)
    ∧ calls_since w wf
      = [ReplyText processing_text;
         YdlExtractInfo (Str.strip text);
         EditText (next_msg w) failed_text]
    ∧ log wf = (log w ++ ["Error downloading video: " +:+ exn_msg e])%list
    ∧ fs wf = fs w.
Proof.
  intros Hurl Hc Hf He Hedit.
  destruct (fresh_tmp_absent Ω _ _ Hf) as [_ Hnone].
  destruct (rmtree_after_download (fs w) tmp [] Hnone) as [Hrm _].
  assert (∃ w', downloads Ω text w (next_msg w) tmp (RPair None VNone) w'
                ∧ trace w' = (trace w ++ [ReplyText processing_text;
                                          YdlExtractInfo (Str.strip text)])%list
                ∧ log w' = (log w ++ ["Error downloading video: " +:+ exn_msg e])%list
                ∧ fs w' = Fs.mkdir tmp (fs w))
    as (w' & Hd & Htr & Hlog & Hfs).
  { eexists. split; [split; [done|]; eexists _, _; split; [|split]|].
    - unfold reply_text, chat, bind, sent_message. by rewrite Hc.
    - unfold mkdtemp. cbn. by rewrite Hf.
    - unfold download_video, try_except, bind, modify, ydl_extract_info, logger_error.
      rewrite He. reflexivity.
    - cbn. by rewrite <- app_assoc. }
  rewrite (handler_after_download _ _ _ _ _ _ _ Hd).
  unfold try_except, finally. rewrite relay_no_path, edit_text_run, Hedit.
  eexists. split; [reflexivity|]. cbn. rewrite Hfs, Hrm, Hlog.
  split; [|done]. apply calls_since_app. cbn. by rewrite Htr, <- app_assoc.
Qed.

(** *** handle_text (lines 179-190) *)

Lemma classifier_is_one_check (s : string) :
  is_tiktok_url s = Str.contains "tiktok.com" (Str.lower s).
Proof.
  rewrite is_tiktok_url_unfold.
  destruct (Str.contains "tiktok.com" _) eqn:E0; [done|].
  assert (∀ d, Str.occurs_in "tiktok.com" d →
            Str.contains d (Str.lower s) = false) as Hsub.
  { intros d Hd. apply not_true_is_false. rewrite contains_occurs. intros Hin.
    apply not_true_iff_false in E0. apply E0, contains_occurs.
    by apply (occurs_in_trans _ d). }
  rewrite (Hsub "vm.tiktok.com"), (Hsub "vt.tiktok.com"); [done|..].
  - by exists "vt.", "".
  - by exists "vm.", "".
Qed.

(** The four key words come down to two checks, and the second is the
    classifier's. *)
Lemma handle_text_dispatch (text : string) (w : world) :
  handle_text Ω text w
  = if Str.contains "http" (Str.lower (Str.strip text))
       || is_tiktok_url (Str.strip text)
    then download_tiktok_video Ω text w
    else (reply_text Ω greeting_text;; ret ()) w.
Proof.
  unfold handle_text, url_keywords. cbn [existsb].
  rewrite is_tiktok_url_unfold.
  by destruct (Str.contains "http" _), (Str.contains "tiktok.com" _),
    (Str.contains "vm.tiktok.com" _), (Str.contains "vt.tiktok.com" _).
Qed.

(** The first thing [handle_text] does is reply, and which text it replies
    with is settled by two containment checks on the lowercased, stripped
    message: the status message when it contains 'tiktok.com', else the
    format message when it contains 'http', else the greeting.  In the last
    two cases nothing else is done. *)
Theorem handle_text_first_reply (text : string) (w wf : world) (out : outcome ()) :
  handle_text Ω text w = (out, wf) →
  ∃ rest,
    calls_since w wf
    = ReplyText
        (if Str.contains "tiktok.com" (Str.lower (Str.strip text))
         then processing_text
         else if Str.contains "http" (Str.lower (Str.strip text))
              then invalid_url_text
              else greeting_text) :: rest
    ∧ (Str.contains "tiktok.com" (Str.lower (Str.strip text)) = false →
       rest = [] ∧ fs wf = fs w ∧ log wf = log w).
Proof.
  rewrite handle_text_dispatch, classifier_is_one_check.
  destruct (Str.contains "tiktok.com" _) eqn:Htk.
  - rewrite orb_true_r. intros Hrun.
    destruct (handler_cases Ω _ _ _ _ Hrun)
      as [(Hurl & _)
         |(_ & [(e & _ & Htr & _)
               |[(_ & _ & Htr & _)
                |(tmp & r & w' & ycalls & tail & c & _ & Htr' & _ & Htr & _)]])].
    + rewrite classifier_is_one_check in Hurl. congruence.
    + rewrite (calls_since_app _ _ _ Htr). by eexists.
    + rewrite (calls_since_app _ _ _ Htr). by eexists.
    + rewrite Htr', <- app_assoc in Htr.
      rewrite (calls_since_app _ _ _ Htr). by eexists.
  - rewrite orb_false_r. destruct (Str.contains "http" _).
    + intros Hrun.
      destruct (invalid_url_shape Ω text w) as (wf' & Hrun' & Htr & Hfs & Hlog).
      { by rewrite classifier_is_one_check. }
      rewrite Hrun' in Hrun. injection Hrun as _ <-.
      rewrite (calls_since_app _ _ _ Htr). by eexists.
    + unfold reply_text, chat, sent_message, bind, ret.
      destruct (chat_error Ω (ReplyText greeting_text)); intros [= <- <-];
        (exists []; split; [by apply calls_since_app|done]).
Qed.

(** The extractor is only ever given the stripped message text, and only
    when that text, lowercased, contains 'tiktok.com'. *)
Theorem extractor_sees_only_tiktok_text (text : string) (w wf : world)
    (out : outcome ()) (c : call) :
  handle_text Ω text w = (out, wf) →
  c ∈ calls_since w wf →
  is_ydl_call c = true →
  Str.occurs_in "tiktok.com" (Str.lower (Str.strip text))
  ∧ (c = YdlExtractInfo (Str.strip text)
     ∨ ∃ tmp, c = YdlDownload (Str.strip text) (outtmpl_for tmp)).
Proof.
  rewrite handle_text_dispatch. intros Hrun Hin Hydl.
  destruct (_ || _).
  2: { revert Hrun. unfold reply_text, chat, sent_message, bind, ret.
       destruct (chat_error Ω (ReplyText greeting_text)); intros [= <- <-];
         (erewrite calls_since_app in Hin; [|cbn; reflexivity]);
         apply list_elem_of_singleton in Hin as ->; discriminate. }
  destruct (handler_cases Ω _ _ _ _ Hrun)
    as [(_ & Htr & _)
       |(Hurl & [(e & _ & Htr & _)
               |[(_ & _ & Htr & _)
                |(tmp & r & w' & ycalls & tail & c' & _ & Htr' & Hy & Htr & _ & _ & Hshape)]])].
  1-3: rewrite (calls_since_app _ _ _ Htr) in Hin;
       repeat (apply elem_of_cons in Hin as [->|Hin]); try discriminate;
       by apply elem_of_nil in Hin.
  rewrite classifier_is_one_check, contains_occurs in Hurl. split; [done|].
  rewrite Htr', <- app_assoc in Htr.
  rewrite (calls_since_app _ _ _ Htr) in Hin.
  apply elem_of_cons in Hin as [->|Hin]; [discriminate|].
  apply elem_of_app in Hin as [Hin|Hin].
  { destruct Hy as [-> | ->];
      repeat (apply elem_of_cons in Hin as [->|Hin]); eauto;
      by apply elem_of_nil in Hin. }
  destruct r as [|path title].
  { subst tail. apply list_elem_of_singleton in Hin as ->. discriminate. }
  destruct Hshape as (size & _ & ->).
  apply in_attempted in Hin as [->|Hplan]; [discriminate|].
  apply planned_calls in Hplan
    as [[_ ->]|(p & -> & [[_ ->]|[_ [->|[->| ->]]]])]; discriminate.
Qed.

(** With a chat framework that accepts every call, [handle_text] returns
    normally for every message, whatever the extractor and the disk do. *)
Theorem handle_text_returns_when_chat_accepts (text : string) (w : world) :
  (∀ c, chat_error Ω c = None) →
  ∃ wf, handle_text Ω text w = (Ret (), wf).
Proof.
  intros Hquiet. rewrite handle_text_dispatch. destruct (_ || _).
  - destruct (download_tiktok_video Ω text w) as [out wf] eqn:Hrun.
    apply handler_last_call in Hrun as (c & _ & ->).
    unfold chat_answer. rewrite Hquiet. by eexists.
  - unfold reply_text, chat, sent_message, bind, ret. rewrite Hquiet. by eexists.
Qed.

End HandlerMore.

(** ** The further theorems at concrete inputs *)

Section MoreInstances.
#[local] Existing Instance Str.ascii_builtins.

Lemma download_video_logs_iff_caught_witness :
  (RPair None VNone = RPair None VNone
   ∧ ∃ e, log (download_video Demo.extractor_fails Demo.url Demo.tmp Demo.in_tmp).2
          = (log Demo.in_tmp ++ ["Error downloading video: " +:+ exn_msg e])%list)
  ∨ ((RPair None VNone = RNone ∨ ∃ p title, RPair None VNone = RPair (Some p) title)
     ∧ log (download_video Demo.extractor_fails Demo.url Demo.tmp Demo.in_tmp).2
       = log Demo.in_tmp).
Proof.
  apply (download_video_logs_iff_caught Demo.extractor_fails Demo.url Demo.tmp
           Demo.in_tmp _ (RPair None VNone)).
  vm_compute; reflexivity.
Defined.



Lemma extraction_error_skips_download_witness :
  ∃ w',
    download_video Demo.extractor_fails Demo.url Demo.tmp Demo.in_tmp
    = (Ret (RPair None VNone), w')
    ∧ trace w' = (trace Demo.in_tmp ++ [YdlExtractInfo Demo.url])%list
    ∧ fs w' = fs Demo.in_tmp
    ∧ log w' = (log Demo.in_tmp
                ++ ["Error downloading video: "
                    +:+ exn_msg (Exn "DownloadError" "Unable to extract")])%list.
Proof.
  apply (extraction_error_skips_download Demo.extractor_fails Demo.url Demo.tmp
           Demo.in_tmp (Exn "DownloadError" "Unable to extract")).
  reflexivity.
Defined.

Lemma download_error_leaves_files_witness :
  ∃ w',
    download_video Demo.download_fails Demo.url Demo.tmp Demo.in_tmp
    = (Ret (RPair None VNone), w')
    ∧ trace w' = (trace Demo.in_tmp
                  ++ [YdlExtractInfo Demo.url;
                      YdlDownload Demo.url (outtmpl_for Demo.tmp)])%list
    ∧ fs w' = Fs.write Demo.tmp (written (ydl_download Demo.download_fails Demo.url))
                (fs Demo.in_tmp)
    ∧ log w' = (log Demo.in_tmp
                ++ ["Error downloading video: "
                    +:+ exn_msg (Exn "DownloadError" "Connection reset")])%list.
Proof.
  apply (download_error_leaves_files Demo.download_fails Demo.url Demo.tmp
           Demo.in_tmp Demo.info (Exn "DownloadError" "Connection reset")).
  - reflexivity.
  - reflexivity.
Defined.


Lemma invalid_url_is_only_answered_witness :
  ∃ wf,
    download_tiktok_video (Demo.good "Example.mp4" 1000)
      "https://example.com/video/1" empty_world
    = (chat_answer (Demo.good "Example.mp4" 1000) (ReplyText invalid_url_text), wf)
    ∧ trace wf = (trace empty_world ++ [ReplyText invalid_url_text])%list
    ∧ fs wf = fs empty_world ∧ log wf = log empty_world
    ∧ ydl_opts wf = ydl_opts empty_world.
Proof.
  apply (invalid_url_is_only_answered (Demo.good "Example.mp4" 1000)
           "https://example.com/video/1" empty_world).
  vm_compute; reflexivity.
Defined.

Lemma refused_status_message_aborts_witness :
  download_tiktok_video Demo.refusing Demo.url empty_world
  = (Raise (Exn "NetworkError" "Timed out"),
     add_call (ReplyText processing_text) empty_world).
Proof.
  apply (refused_status_message_aborts Demo.refusing Demo.url empty_world
           (Exn "NetworkError" "Timed out")).
  - vm_compute; reflexivity.
  - reflexivity.
Defined.

Lemma handler_outcome_answers_last_call_witness :
  ∃ c, last (calls_since empty_world Demo.unanswered.2) = Some c
       ∧ Demo.unanswered.1 = chat_answer Demo.refusing c.
Proof.
  apply (handler_outcome_answers_last_call Demo.refusing Demo.url empty_world
           Demo.unanswered.2 Demo.unanswered.1).
  apply surjective_pairing.
Defined.

Lemma upload_only_within_limit_witness :
  ∃ tmp title w' size,
    downloads (Demo.good "Example.mp4" 1000) Demo.url empty_world
      (next_msg empty_world) tmp (RPair (Some "/tmp/tmpa1b2c3/Example.mp4") title) w'
    ∧ caption (VStr "Example") = caption title
    ∧ "Markdown" = "Markdown"
    ∧ Fs.getsize (fs w') "/tmp/tmpa1b2c3/Example.mp4" = Some size
    ∧ (size ≤ 50 * 1024 * 1024)%N
    ∧ chat_error (Demo.good "Example.mp4" 1000)
        (EditText (next_msg empty_world) uploading_text) = None.
Proof.
  apply (upload_only_within_limit (Demo.good "Example.mp4" 1000) Demo.url empty_world
           Demo.handled.2 Demo.handled.1
           "/tmp/tmpa1b2c3/Example.mp4" (caption (VStr "Example")) "Markdown").
  - apply surjective_pairing.
  - vm_compute. list_in.
Defined.

Lemma status_deleted_only_after_upload_witness :
  0 = next_msg empty_world
  ∧ ∃ video title,
      ReplyVideo video (caption title) "Markdown"
        ∈ calls_since empty_world Demo.handled.2
      ∧ chat_error (Demo.good "Example.mp4" 1000)
          (ReplyVideo video (caption title) "Markdown") = None.
Proof.
  apply (status_deleted_only_after_upload (Demo.good "Example.mp4" 1000) Demo.url
           empty_world Demo.handled.2 Demo.handled.1 0).
  - apply surjective_pairing.
  - vm_compute. list_in.
Defined.

Lemma at_most_one_upload_witness :
  (length (filter (λ c, is_upload c = true)
             (calls_since empty_world Demo.handled.2)) ≤ 1)%nat.
Proof.
  apply (at_most_one_upload (Demo.good "Example.mp4" 1000) Demo.url empty_world
           Demo.handled.2 Demo.handled.1).
  apply surjective_pairing.
Defined.

Lemma edits_target_status_message_witness :
  0 = next_msg empty_world
  ∧ (uploading_text = too_large_text ∨ uploading_text = uploading_text
     ∨ uploading_text = failed_text ∨ uploading_text = error_text).
Proof.
  apply (edits_target_status_message (Demo.good "Example.mp4" 1000) Demo.url
           empty_world Demo.handled.2 Demo.handled.1 (EditText 0 uploading_text)).
  - apply surjective_pairing.
  - vm_compute. list_in.
Defined.

Lemma returned_path_is_on_disk_witness :
  truthy (Some "/tmp/tmpa1b2c3/Example.mp4") = true
  ∧ Fs.path_exists
      (fs (download_video (Demo.good "Example.mp4" 1000) Demo.url Demo.tmp
             Demo.in_tmp).2) "/tmp/tmpa1b2c3/Example.mp4" = true
  ∧ ∃ size,
      Fs.getsize
        (fs (download_video (Demo.good "Example.mp4" 1000) Demo.url Demo.tmp
               Demo.in_tmp).2) "/tmp/tmpa1b2c3/Example.mp4" = Some size.
Proof.
  apply (returned_path_is_on_disk (Demo.good "Example.mp4" 1000) Demo.url Demo.tmp
           Demo.in_tmp _ "/tmp/tmpa1b2c3/Example.mp4" (VStr "Example")).
  vm_compute; reflexivity.
Defined.

Lemma failed_text_only_after_caught_error_witness :
  ∃ tmp w',
    downloads Demo.extractor_fails Demo.url empty_world (next_msg empty_world) tmp
      (RPair None VNone) w'.
Proof.
  apply (failed_text_only_after_caught_error Demo.extractor_fails Demo.url empty_world
           (download_tiktok_video Demo.extractor_fails Demo.url empty_world).2
           (download_tiktok_video Demo.extractor_fails Demo.url empty_world).1 0).
  - apply surjective_pairing.
  - vm_compute. list_in.
Defined.

Lemma extraction_error_is_reported_witness :
  ∃ wf,
    download_tiktok_video Demo.extractor_fails Demo.url empty_world = (Ret (), wf)
    ∧ calls_since empty_world wf
      = [ReplyText processing_text;
         YdlExtractInfo (Str.strip Demo.url);
         EditText (next_msg empty_world) failed_text]
    ∧ log wf = (log empty_world
                ++ ["Error downloading video: "
                    +:+ exn_msg (Exn "DownloadError" "Unable to extract")])%list
    ∧ fs wf = fs empty_world.
Proof.
  apply (extraction_error_is_reported Demo.extractor_fails Demo.url empty_world
           Demo.tmp (Exn "DownloadError" "Unable to extract")).
  - vm_compute; reflexivity.
  - reflexivity.
  - vm_compute; reflexivity.
  - reflexivity.
  - reflexivity.
Defined.

Lemma handle_text_first_reply_witness :
  ∃ rest,
    calls_since empty_world
      (handle_text (Demo.good "Example.mp4" 1000) "http://example.com" empty_world).2
    = ReplyText
        (if Str.contains "tiktok.com" (Str.lower (Str.strip "http://example.com"))
         then processing_text
         else if Str.contains "http" (Str.lower (Str.strip "http://example.com"))
              then invalid_url_text
              else greeting_text) :: rest
    ∧ (Str.contains "tiktok.com" (Str.lower (Str.strip "http://example.com")) = false →
       rest = []
       ∧ fs (handle_text (Demo.good "Example.mp4" 1000) "http://example.com"
               empty_world).2 = fs empty_world
       ∧ log (handle_text (Demo.good "Example.mp4" 1000) "http://example.com"
                empty_world).2 = log empty_world).
Proof.
  apply (handle_text_first_reply (Demo.good "Example.mp4" 1000) "http://example.com"
           empty_world _
           (handle_text (Demo.good "Example.mp4" 1000) "http://example.com"
              empty_world).1).
  apply surjective_pairing.
Defined.

Lemma extractor_sees_only_tiktok_text_witness :
  Str.occurs_in "tiktok.com" (Str.lower (Str.strip Demo.url))
  ∧ (YdlExtractInfo Demo.url = YdlExtractInfo (Str.strip Demo.url)
     ∨ ∃ tmp, YdlExtractInfo Demo.url = YdlDownload (Str.strip Demo.url) (outtmpl_for tmp)).
Proof.
  apply (extractor_sees_only_tiktok_text (Demo.good "Example.mp4" 1000) Demo.url
           empty_world
           (handle_text (Demo.good "Example.mp4" 1000) Demo.url empty_world).2
           (handle_text (Demo.good "Example.mp4" 1000) Demo.url empty_world).1
           (YdlExtractInfo Demo.url)).
  - apply surjective_pairing.
  - vm_compute. list_in.
  - reflexivity.
Defined.

Lemma handle_text_returns_when_chat_accepts_witness :
  ∃ wf, handle_text (Demo.good "Example.mp4" 1000) Demo.url empty_world = (Ret (), wf).
Proof.
  apply (handle_text_returns_when_chat_accepts (Demo.good "Example.mp4" 1000)
           Demo.url empty_world).
  intros c. reflexivity.
Defined.

End MoreInstances.
